(** * Personality core of Bulb-AI: store, updater and connection manager

    A shallow embedding of
      - [src/core/personality/personality_connect.ts]  (module [Connect]),
      - [src/core/personality/personality_storage.ts]  (module [Storage]),
      - [src/unnamed/part_003], the PersonalityUpdater (module [Updater]).

    Modelling choices.
      - A JavaScript [number] is an exact rational ([Q]); results are
        compared with [==] and [<=].  NaN, the infinities and rounding
        are outside this model.  Module [Binary64] has the decay tick on
        binary64 numbers, where rounding decides how far a value gets.
      - A JavaScript [Map] keyed by strings is a [gmap string _]; none of
        the properties below depends on iteration order.
      - A class instance is a record of its private fields; a method is a
        function from the record to the updated record.  The objects held
        in the maps are kept by value: a method that mutates an object it
        looked up writes the new value back under the same key.
      - [this.emit(topic, payload)] appends the notification to the
        [emitted] trace of the instance; listeners are the environment's.
      - [Date.now()] is an argument of the method that reads it.
      - Module [Storage] keeps the store's personalities by value and has
        the two methods that write numbers ([updateTrait], [updateMood]).
        Module [StorageObjects] has the whole class, templates and
        [createPersonality] included, with the identity of the trait and
        mood objects that a template shares with its personalities.
      - The later modules cover the game state manager (part_004, with the
        types of engine.ts) and the queue and reconnection of the network
        manager (part_001, part_006); each states what it leaves to the
        environment. *)

From Stdlib Require Import QArith Qminmax Qabs Lqa ZArith.
From Stdlib Require PrimFloat.
From stdpp Require Import gmap strings list fin_maps.

(** ** Numbers *)

Module Num.

(** [x > y] and [x < y] on numbers. *)
Definition gtb (x y : Q) : bool := negb (Qle_bool x y).
Definition ltb (x y : Q) : bool := negb (Qle_bool y x).

(** [x || 0] on a number: [0] is falsy. *)
Definition orZero (x : Q) : Q := if Qeq_bool x 0 then 0%Q else x.

(** [Math.max(lo, Math.min(hi, x))]. *)
Definition clamp (lo hi x : Q) : Q := Qmax lo (Qmin hi x).

(** Equality of optional numbers up to [==]. *)
Definition optEq (a b : option Q) : Prop :=
  match a, b with
  | Some x, Some y => (x == y)%Q
  | None, None => True
  | _, _ => False
  end.

End Num.

(** ** ConnectionManager (personality_connect.ts) *)

Module Connect.

Record ConnectionStrength := mkConnectionStrength {
  value : Q;
  trust : Q;
  familiarity : Q;
  lastInteraction : Z
}.

Record Impact := mkImpact {
  impact_trust : Q;
  impact_familiarity : Q;
  connectionStrength : Q
}.

Record AgentInteraction := mkAgentInteraction {
  type : string;
  sourceId : string;
  targetId : string;
  timestamp : Z;
  content : string;
  impact : Impact
}.

(** [Partial<ConnectionStrength>]: every field may be absent. *)
Record PartialConnectionStrength := mkPartial {
  p_value : option Q;
  p_trust : option Q;
  p_familiarity : option Q;
  p_lastInteraction : option Z
}.

Definition noOverrides : PartialConnectionStrength :=
  mkPartial None None None None.

Record ConnectionRule := mkRule {
  condition : AgentInteraction -> bool;
  rule_impact : AgentInteraction -> ConnectionStrength -> PartialConnectionStrength
}.

Inductive Notification :=
| Connected (sourceId targetId : string) (connection : ConnectionStrength)
| Disconnected (sourceId targetId : string)
| ConnectionUpdated (sourceId targetId : string)
    (connection : ConnectionStrength) (interaction : AgentInteraction).

Record ConnectionManager := mkManager {
  connections : gmap string (gmap string ConnectionStrength);
  interactionHistory : gmap string (list AgentInteraction);
  rules : list ConnectionRule;
  emitted : list Notification
}.

Definition emit (m : ConnectionManager) (n : Notification) : ConnectionManager :=
  mkManager (connections m) (interactionHistory m) (rules m) (emitted m ++ [n]).

(** [Object.assign(connection, updates)]. *)
Definition assign (c : ConnectionStrength) (u : PartialConnectionStrength)
  : ConnectionStrength :=
  {| value := default (value c) (p_value u);
     trust := default (trust c) (p_trust u);
     familiarity := default (familiarity c) (p_familiarity u);
     lastInteraction := default (lastInteraction c) (p_lastInteraction u) |}.

(** Rule for positive interactions. *)
Definition positiveRule : ConnectionRule :=
  {| condition := fun i => Num.gtb (connectionStrength (impact i)) 0;
     rule_impact := fun i current =>
       {| p_trust := Some (Qmin 1 (trust current + impact_trust (impact i)));
          p_familiarity :=
            Some (Qmin 1 (familiarity current + impact_familiarity (impact i)));
          p_value :=
            Some (Qmin 1 (value current + connectionStrength (impact i)));
          p_lastInteraction := None |} |}.

(** Rule for negative interactions. *)
Definition negativeRule : ConnectionRule :=
  {| condition := fun i => Num.ltb (connectionStrength (impact i)) 0;
     rule_impact := fun i current =>
       {| p_trust := Some (Qmax 0 (trust current + impact_trust (impact i)));
          p_value :=
            Some (Qmax (-1) (value current + connectionStrength (impact i)));
          p_familiarity := None;
          p_lastInteraction := None |} |}.

Definition addRule (m : ConnectionManager) (r : ConnectionRule) : ConnectionManager :=
  mkManager (connections m) (interactionHistory m) (rules m ++ [r]) (emitted m).

Definition initializeDefaultRules (m : ConnectionManager) : ConnectionManager :=
  addRule (addRule m positiveRule) negativeRule.

(** [new ConnectionManager()]. *)
Definition newManager : ConnectionManager :=
  initializeDefaultRules (mkManager ∅ ∅ [] []).

Definition connect (m : ConnectionManager) (sourceId targetId : string)
    (initialStrength : PartialConnectionStrength) (now : Z) : ConnectionManager :=
  let conns :=
    match connections m !! sourceId with
    | Some _ => connections m
    | None => <[sourceId := ∅]> (connections m)
    end in
  let connection :=
    {| value := default 0%Q (p_value initialStrength);
       trust := default 0.1%Q (p_trust initialStrength);
       familiarity := default 0%Q (p_familiarity initialStrength);
       lastInteraction := now |} in
  let inner := default ∅ (conns !! sourceId) in
  emit (mkManager (<[sourceId := <[targetId := connection]> inner]> conns)
                  (interactionHistory m) (rules m) (emitted m))
       (Connected sourceId targetId connection).

Definition disconnect (m : ConnectionManager) (sourceId targetId : string)
  : ConnectionManager :=
  let conns :=
    match connections m !! sourceId with
    | Some inner => <[sourceId := delete targetId inner]> (connections m)
    | None => connections m
    end in
  emit (mkManager conns (interactionHistory m) (rules m) (emitted m))
       (Disconnected sourceId targetId).

Definition getConnection (m : ConnectionManager) (sourceId targetId : string)
  : option ConnectionStrength :=
  match connections m !! sourceId with
  | Some inner => inner !! targetId
  | None => None
  end.

(** The template literal [`${sourceId}-${targetId}`]. *)
Definition historyKey (i : AgentInteraction) : string :=
  sourceId i +:+ "-" +:+ targetId i.

(** The [filter(...).forEach(...)] of [recordInteraction]: every rule whose
    condition holds is applied in list order to the same connection. *)
Definition applyRules (rs : list ConnectionRule) (i : AgentInteraction)
    (c : ConnectionStrength) : ConnectionStrength :=
  fold_left (fun c r => assign c (rule_impact r i c))
            (List.filter (fun r => condition r i) rs) c.

Definition setLastInteraction (c : ConnectionStrength) (t : Z) : ConnectionStrength :=
  {| value := value c; trust := trust c; familiarity := familiarity c;
     lastInteraction := t |}.

Definition recordInteraction (m : ConnectionManager) (i : AgentInteraction)
  : ConnectionManager :=
  let key := historyKey i in
  let hist0 :=
    match interactionHistory m !! key with
    | Some _ => interactionHistory m
    | None => <[key := []]> (interactionHistory m)
    end in
  let hist := <[key := default [] (hist0 !! key) ++ [i]]> hist0 in
  match getConnection m (sourceId i) (targetId i) with
  | Some connection =>
      let connection' :=
        setLastInteraction (applyRules (rules m) i connection) (timestamp i) in
      let inner := default ∅ (connections m !! sourceId i) in
      emit (mkManager
              (<[sourceId i := <[targetId i := connection']> inner]> (connections m))
              hist (rules m) (emitted m))
           (ConnectionUpdated (sourceId i) (targetId i) connection' i)
  | None => mkManager (connections m) hist (rules m) (emitted m)
  end.

End Connect.

(** ** PersonalityStorage (personality_storage.ts) *)

Module Storage.

Inductive Category := emotional | behavioral | cognitive | social.

Record PersonalityTrait := mkTrait {
  name : string;
  value : Q;
  category : Category;
  description : string
}.

Record Mood := mkMood {
  happiness : Q;
  energy : Q;
  stress : Q;
  dominance : Q
}.

(** [Partial<Personality['mood']>]. *)
Record PartialMood := mkPartialMood {
  p_happiness : option Q;
  p_energy : option Q;
  p_stress : option Q;
  p_dominance : option Q
}.

Definition emptyMood : PartialMood := mkPartialMood None None None None.

Record Personality := mkPersonality {
  id : string;
  baseTraits : gmap string PersonalityTrait;
  adaptiveTraits : gmap string PersonalityTrait;
  mood : Mood;
  relationships : gmap string Q
}.

Inductive Notification :=
| TraitUpdated (agentId traitName : string) (value : Q) (isAdaptive : bool)
| MoodUpdated (agentId : string) (mood : Mood).

(** The [personalities] field and the notifications sent so far. *)
Record PersonalityStorage := mkStorage {
  personalities : gmap string Personality;
  emitted : list Notification
}.

Definition getPersonality (st : PersonalityStorage) (agentId : string)
  : option Personality :=
  personalities st !! agentId.

(** [trait.value = ...] on a trait object. *)
Definition setValue (t : PersonalityTrait) (v : Q) : PersonalityTrait :=
  mkTrait (name t) v (category t) (description t).

Definition setTraits (p : Personality) (isAdaptive : bool)
    (traitMap : gmap string PersonalityTrait) : Personality :=
  if isAdaptive
  then mkPersonality (id p) (baseTraits p) traitMap (mood p) (relationships p)
  else mkPersonality (id p) traitMap (adaptiveTraits p) (mood p) (relationships p).

(** [isAdaptive ? personality.adaptiveTraits : personality.baseTraits]. *)
Definition traitMapOf (personality : Personality) (isAdaptive : bool)
  : gmap string PersonalityTrait :=
  if isAdaptive then adaptiveTraits personality else baseTraits personality.

Definition updateTrait (st : PersonalityStorage) (agentId traitName : string)
    (v : Q) (isAdaptive : bool) : PersonalityStorage :=
  match personalities st !! agentId with
  | None => st
  | Some personality =>
      let traitMap := traitMapOf personality isAdaptive in
      match traitMap !! traitName with
      | Some trait =>
          let trait' := setValue trait (Qmax 0 (Qmin 1 v)) in
          let personality' :=
            setTraits personality isAdaptive (<[traitName := trait']> traitMap) in
          mkStorage (<[agentId := personality']> (personalities st))
                    (emitted st ++ [TraitUpdated agentId traitName v isAdaptive])
      | None => st
      end
  end.

(** One step of the [Object.entries(moodUpdates).forEach] loop per key of
    the mood type. *)
Definition writeMood (current : Q) (update : option Q) : Q :=
  match update with
  | Some v => Qmax 0 (Qmin 1 v)
  | None => current
  end.

Definition assignMood (m : Mood) (moodUpdates : PartialMood) : Mood :=
  {| happiness := writeMood (happiness m) (p_happiness moodUpdates);
     energy := writeMood (energy m) (p_energy moodUpdates);
     stress := writeMood (stress m) (p_stress moodUpdates);
     dominance := writeMood (dominance m) (p_dominance moodUpdates) |}.

Definition updateMood (st : PersonalityStorage) (agentId : string)
    (moodUpdates : PartialMood) : PersonalityStorage :=
  match personalities st !! agentId with
  | None => st
  | Some personality =>
      let mood' := assignMood (mood personality) moodUpdates in
      let personality' :=
        mkPersonality (id personality) (baseTraits personality)
          (adaptiveTraits personality) mood' (relationships personality) in
      mkStorage (<[agentId := personality']> (personalities st))
                (emitted st ++ [MoodUpdated agentId mood'])
  end.

End Storage.

(** ** PersonalityUpdater (part_003) *)

Module Updater.

Local Open Scope Q_scope.

Record EmotionalEvent := mkEvent {
  type : string;
  intensity : Q;
  valence : Q;
  source : string;
  context : option (gmap string string)
}.

Record PersonalityUpdate := mkUpdate {
  traitUpdates : gmap string Q;
  moodUpdates : Storage.PartialMood;
  relationshipUpdates : gmap string Q
}.

Definition decayRate : Q := 0.1.
Definition adaptationRate : Q := 0.05.

(** The only mutable field of the class. *)
Record PersonalityUpdater := mkUpdater {
  emotionalMemory : gmap string (list EmotionalEvent)
}.

Definition newUpdater : PersonalityUpdater := mkUpdater ∅.

Definition calculateTraitUpdates (personality : Storage.Personality)
    (event : EmotionalEvent) : gmap string Q :=
  let updates : gmap string Q := ∅ in
  if String.eqb (type event) "socialInteraction" then
    <["sociability" := valence event * adaptationRate]> updates
  else if String.eqb (type event) "challenge" then
    <["resilience" := intensity event * adaptationRate]> updates
  else if String.eqb (type event) "learning" then
    <["curiosity" := valence event * adaptationRate]> updates
  else updates.

Definition calculateMoodUpdates (personality : Storage.Personality)
    (event : EmotionalEvent) : Storage.PartialMood :=
  let happiness := valence event * intensity event in
  let energy := intensity event * (if Num.gtb (valence event) 0 then 1 else -0.5) in
  let stress := intensity event * (if Num.ltb (valence event) 0 then 1 else -0.5) in
  if String.eqb (type event) "conflict" then
    {| Storage.p_happiness := Some happiness;
       Storage.p_energy := Some energy;
       Storage.p_stress := Some (Qmin 1 (Num.orZero stress + 0.2));
       Storage.p_dominance :=
         Some (if Num.gtb (valence event) 0 then 0.1 else -0.1) |}
  else
    {| Storage.p_happiness := Some happiness;
       Storage.p_energy := Some energy;
       Storage.p_stress := Some stress;
       Storage.p_dominance := None |}.

(** A string is truthy when it is not empty. *)
Definition truthy (s : string) : bool := negb (String.eqb s "").

Definition calculateRelationshipUpdates (personality : Storage.Personality)
    (event : EmotionalEvent) : gmap string Q :=
  let updates : gmap string Q := ∅ in
  if truthy (source event)
     && negb (String.eqb (source event) (Storage.id personality))
  then
    let currentRelationship :=
      match Storage.relationships personality !! source event with
      | Some r => Num.orZero r
      | None => 0
      end in
    let update := valence event * intensity event * adaptationRate in
    <[source event := Qmax (-1) (Qmin 1 (currentRelationship + update))]> updates
  else updates.

Definition processEvent (u : PersonalityUpdater)
    (personality : Storage.Personality) (event : EmotionalEvent)
  : PersonalityUpdater * PersonalityUpdate :=
  let pid := Storage.id personality in
  let mem0 :=
    match emotionalMemory u !! pid with
    | Some _ => emotionalMemory u
    | None => <[pid := []]> (emotionalMemory u)
    end in
  let mem :=
    match mem0 !! pid with
    | Some log => <[pid := log ++ [event]]> mem0
    | None => mem0
    end in
  (mkUpdater mem,
   {| traitUpdates := calculateTraitUpdates personality event;
      moodUpdates := calculateMoodUpdates personality event;
      relationshipUpdates := calculateRelationshipUpdates personality event |}).

Definition decayPersonality (personality : Storage.Personality) : PersonalityUpdate :=
  let traitUpdates : gmap string Q :=
    map_imap
      (fun name trait =>
         match Storage.baseTraits personality !! name with
         | Some baseTrait =>
             let diff := Storage.value baseTrait - Storage.value trait in
             Some (diff * decayRate)
         | None => None
         end)
      (Storage.adaptiveTraits personality) in
  let m := Storage.mood personality in
  let moodUpdates :=
    {| Storage.p_happiness := Some ((0.5 - Storage.happiness m) * decayRate);
       Storage.p_energy := Some ((0.5 - Storage.energy m) * decayRate);
       Storage.p_stress := Some ((0.5 - Storage.stress m) * decayRate);
       Storage.p_dominance := Some ((0.5 - Storage.dominance m) * decayRate) |} in
  {| traitUpdates := traitUpdates;
     moodUpdates := moodUpdates;
     relationshipUpdates := ∅ |}.

(** [memory.slice(start)] for an integer [start]: a negative [start]
    counts from the end, and both ends saturate. *)
Definition slice {A} (memory : list A) (start : Z) : list A :=
  let len := Z.of_nat (length memory) in
  let k := if (start <? 0)%Z then Z.max (len + start) 0 else Z.min start len in
  drop (Z.to_nat k) memory.

(** [limit ? memory.slice(-limit) : memory]; an absent limit and the
    limit [0] are both falsy. *)
Definition getEmotionalMemory (u : PersonalityUpdater) (personalityId : string)
    (limit : option Z) : list EmotionalEvent :=
  let memory := default [] (emotionalMemory u !! personalityId) in
  match limit with
  | Some l => if (l =? 0)%Z then memory else slice memory (- l)%Z
  | None => memory
  end.

Definition clearEmotionalMemory (u : PersonalityUpdater) (personalityId : string)
  : PersonalityUpdater :=
  mkUpdater (delete personalityId (emotionalMemory u)).

End Updater.

(** ** The caller's side of a decay tick *)

(** [decayPersonality] only computes deltas; the driver that ticks it adds
    each returned delta, as an offset, to the value it was computed from.
    The sums here are exact; [Binary64.decayTick] below is the same tick
    with every result rounded, and what is stated of ticks is stated so
    that rounding keeps it. *)

Section DecayTicks.

Import Storage Updater.
Local Open Scope Q_scope.

Definition offset (current : Q) (delta : option Q) : Q :=
  match delta with
  | Some d => current + d
  | None => current
  end.

Definition applyOffsets (p : Personality) (upd : PersonalityUpdate) : Personality :=
  mkPersonality (id p) (baseTraits p)
    (map_imap
       (fun traitName trait =>
          Some (setValue trait (offset (value trait) (traitUpdates upd !! traitName))))
       (adaptiveTraits p))
    {| happiness := offset (happiness (mood p)) (p_happiness (moodUpdates upd));
       energy := offset (energy (mood p)) (p_energy (moodUpdates upd));
       stress := offset (stress (mood p)) (p_stress (moodUpdates upd));
       dominance := offset (dominance (mood p)) (p_dominance (moodUpdates upd)) |}
    (relationships p).

Definition decayTick (p : Personality) : Personality :=
  applyOffsets p (decayPersonality p).

End DecayTicks.

(** ** Decay ticks on binary64 numbers *)

(** [decayPersonality] and the same driver with the numbers the program
    computes with: each difference, product and sum is rounded to binary64.
    A trait stands for its value; identifiers, categories, descriptions
    and relationships play no part in a tick. *)

Module Binary64.

Import PrimFloat.
Local Open Scope float_scope.
Local Set Warnings "-inexact-float".

Record Mood := mkMood {
  happiness : float;
  energy : float;
  stress : float;
  dominance : float
}.

Record PartialMood := mkPartialMood {
  p_happiness : option float;
  p_energy : option float;
  p_stress : option float;
  p_dominance : option float
}.

Record Personality := mkPersonality {
  baseTraits : gmap string float;
  adaptiveTraits : gmap string float;
  mood : Mood
}.

Record PersonalityUpdate := mkUpdate {
  traitUpdates : gmap string float;
  moodUpdates : PartialMood;
  relationshipUpdates : gmap string float
}.

(** The binary64 number nearest to 0.1. *)
Definition decayRate : float := 0.1.

Definition decayPersonality (personality : Personality) : PersonalityUpdate :=
  let traitUpdates : gmap string float :=
    map_imap
      (fun name value =>
         match baseTraits personality !! name with
         | Some baseValue =>
             let diff := baseValue - value in
             Some (diff * decayRate)
         | None => None
         end)
      (adaptiveTraits personality) in
  let m := mood personality in
  let moodUpdates :=
    {| p_happiness := Some ((0.5 - happiness m) * decayRate);
       p_energy := Some ((0.5 - energy m) * decayRate);
       p_stress := Some ((0.5 - stress m) * decayRate);
       p_dominance := Some ((0.5 - dominance m) * decayRate) |} in
  {| traitUpdates := traitUpdates;
     moodUpdates := moodUpdates;
     relationshipUpdates := ∅ |}.

Definition offset (current : float) (delta : option float) : float :=
  match delta with
  | Some d => current + d
  | None => current
  end.

Definition applyOffsets (p : Personality) (upd : PersonalityUpdate) : Personality :=
  mkPersonality (baseTraits p)
    (map_imap
       (fun traitName value => Some (offset value (traitUpdates upd !! traitName)))
       (adaptiveTraits p))
    {| happiness := offset (happiness (mood p)) (p_happiness (moodUpdates upd));
       energy := offset (energy (mood p)) (p_energy (moodUpdates upd));
       stress := offset (stress (mood p)) (p_stress (moodUpdates upd));
       dominance := offset (dominance (mood p)) (p_dominance (moodUpdates upd)) |}.

Definition decayTick (p : Personality) : Personality :=
  applyOffsets p (decayPersonality p).


(** The values of [drifted] below: sociability adapted to 0.4 from its
    base 0.9, and the mood of the friendly template. *)
Definition drifted : Personality :=
  mkPersonality {[ "sociability" := 0.9 ]} {[ "sociability" := 0.4 ]}
    (mkMood 0.7 0.6 0.3 0.4).


End Binary64.

(** ** One value over one tick, with any rounding *)

(** The arithmetic of a tick on one value, in the order of the program:
    the difference, its product with the decay rate, the sum with the
    current value, each rounded by [rnd]; the decay rate is the rounded
    0.1.  With the identity for [rnd] this is the step of [decayTick]. *)
Definition roundedStep (rnd : Q -> Q) (target current : Q) : Q :=
  rnd (current + rnd (rnd (target - current) * rnd 0.1))%Q.

(** ** Sequences of calls *)

(** The calls that write numbers, as data, so that a property can speak of
    every sequence of them.  Applying the deltas of a [PersonalityUpdate]
    through the store is a sequence of [updateTrait] and [updateMood] calls
    with some values. *)

Inductive StoreCall :=
| CallUpdateTrait (agentId traitName : string) (v : Q) (isAdaptive : bool)
| CallUpdateMood (agentId : string) (moodUpdates : Storage.PartialMood).

Definition runStoreCall (st : Storage.PersonalityStorage) (call : StoreCall)
  : Storage.PersonalityStorage :=
  match call with
  | CallUpdateTrait agentId traitName v isAdaptive =>
      Storage.updateTrait st agentId traitName v isAdaptive
  | CallUpdateMood agentId moodUpdates =>
      Storage.updateMood st agentId moodUpdates
  end.

Definition runStoreCalls (st : Storage.PersonalityStorage) (calls : list StoreCall)
  : Storage.PersonalityStorage :=
  fold_left runStoreCall calls st.

Inductive ManagerCall :=
| CallConnect (sourceId targetId : string)
    (initialStrength : Connect.PartialConnectionStrength) (now : Z)
| CallDisconnect (sourceId targetId : string)
| CallRecordInteraction (interaction : Connect.AgentInteraction).

Definition runManagerCall (m : Connect.ConnectionManager) (call : ManagerCall)
  : Connect.ConnectionManager :=
  match call with
  | CallConnect s t initialStrength now => Connect.connect m s t initialStrength now
  | CallDisconnect s t => Connect.disconnect m s t
  | CallRecordInteraction i => Connect.recordInteraction m i
  end.

Definition runManagerCalls (m : Connect.ConnectionManager) (calls : list ManagerCall)
  : Connect.ConnectionManager :=
  fold_left runManagerCall calls m.

(** ** Ranges and predicates used in the statements *)

Section Ranges.

Local Open Scope Q_scope.

Definition unitInterval (x : Q) : Prop := 0 <= x <= 1.
Definition signedUnitInterval (x : Q) : Prop := -1 <= x <= 1.

Definition moodInRange (m : Storage.Mood) : Prop :=
  unitInterval (Storage.happiness m) /\ unitInterval (Storage.energy m)
  /\ unitInterval (Storage.stress m) /\ unitInterval (Storage.dominance m).

Definition personalityInRange (p : Storage.Personality) : Prop :=
  map_Forall (fun _ t => unitInterval (Storage.value t)) (Storage.baseTraits p)
  /\ map_Forall (fun _ t => unitInterval (Storage.value t)) (Storage.adaptiveTraits p)
  /\ moodInRange (Storage.mood p)
  /\ map_Forall (fun _ r => signedUnitInterval r) (Storage.relationships p).

Definition storageInRange (st : Storage.PersonalityStorage) : Prop :=
  map_Forall (fun _ p => personalityInRange p) (Storage.personalities st).

Definition connectionInRange (c : Connect.ConnectionStrength) : Prop :=
  signedUnitInterval (Connect.value c)
  /\ unitInterval (Connect.trust c)
  /\ unitInterval (Connect.familiarity c).

Definition managerInRange (m : Connect.ConnectionManager) : Prop :=
  forall (s t : string) c,
    Connect.getConnection m s t = Some c -> connectionInRange c.

(** The trust and familiarity impacts of an interaction point the same way
    as its connection strength. *)
Definition alignedImpact (i : Connect.AgentInteraction) : Prop :=
  let k := Connect.impact i in
  (0 < Connect.connectionStrength k ->
     0 <= Connect.impact_trust k /\ 0 <= Connect.impact_familiarity k)
  /\ (Connect.connectionStrength k < 0 -> Connect.impact_trust k <= 0).

(** The overrides given to [connect] are within the ranges of the fields. *)
Definition overridesInRange (o : Connect.PartialConnectionStrength) : Prop :=
  (forall v, Connect.p_value o = Some v -> signedUnitInterval v)
  /\ (forall v, Connect.p_trust o = Some v -> unitInterval v)
  /\ (forall v, Connect.p_familiarity o = Some v -> unitInterval v).

(** A call whose numbers respect the ranges and whose impacts are aligned. *)
Definition tameCall (call : ManagerCall) : Prop :=
  match call with
  | CallConnect _ _ initialStrength _ => overridesInRange initialStrength
  | CallDisconnect _ _ => True
  | CallRecordInteraction i => alignedImpact i
  end.

(** [x'] is no further from [target] than [x] was, and lies between [x]
    and [target]: the value did not move away and did not pass its target. *)
Definition settles (x x' target : Q) : Prop :=
  Qabs (x' - target) <= Qabs (x - target)
  /\ (x <= target -> x <= x' /\ x' <= target)
  /\ (target <= x -> target <= x' /\ x' <= x).

End Ranges.

(** ** Concrete inputs *)

Section Scenarios.

Import Connect Storage Updater.
Local Open Scope Q_scope.

(** A manager with one connection created with the defaults. *)
Definition defaultPair : ConnectionManager :=
  connect newManager "a" "b" noOverrides 0.

(** A manager where ["a"] is connected to ["c"] but not to ["b"]. *)
Definition otherTarget : ConnectionManager :=
  connect newManager "a" "c" noOverrides 0.

Definition friendlyInteraction : AgentInteraction :=
  mkAgentInteraction "chat" "a" "b" 1 "" (mkImpact 0.2 0.3 0.5).

(** A positive interaction whose trust and familiarity impacts are negative. *)
Definition mixedSignInteraction : AgentInteraction :=
  mkAgentInteraction "chat" "a" "b" 1 "" (mkImpact (-1) (-1) 0.5).

Definition slightlyNegativeTrust : AgentInteraction :=
  mkAgentInteraction "chat" "a" "b" 1 "" (mkImpact (-0.05) 0 0.5).

Definition outOfRangeOverrides : PartialConnectionStrength :=
  mkPartial (Some 5) (Some 2) (Some (-1)) None.

Definition socialFromX (ctx : option (gmap string string)) : EmotionalEvent :=
  mkEvent "socialInteraction" 1 0.6 "X" ctx.

Definition acquaintanceOfX : Personality :=
  mkPersonality "agent1" ∅ ∅ (mkMood 0.5 0.5 0.5 0.5) {[ "X" := 0.98 ]}.

(** An adaptive trait that has no base trait of its name. *)
Definition driftOnly : Personality :=
  mkPersonality "agent1" ∅
    {[ "boldness" := mkTrait "boldness" 0.3 behavioral "acquired" ]}
    (mkMood 0.5 0.5 0.5 0.5) ∅.

Definition drifted : Personality :=
  mkPersonality "agent1"
    {[ "sociability" := mkTrait "sociability" 0.9 social "base" ]}
    {[ "sociability" := mkTrait "sociability" 0.4 social "adapted" ]}
    (mkMood 0.7 0.6 0.3 0.4) ∅.

(** A personality at its baseline. *)
Definition settled : Personality :=
  mkPersonality "agent1"
    {[ "sociability" := mkTrait "sociability" 0.9 social "base" ]}
    {[ "sociability" := mkTrait "sociability" 0.9 social "adapted" ]}
    (mkMood 0.5 0.5 0.5 0.5) ∅.


Definition eventA : EmotionalEvent := mkEvent "learning" 1 0.5 "X" None.
Definition eventB : EmotionalEvent := mkEvent "challenge" 2 (-0.2) "Y" None.
Definition eventC : EmotionalEvent := mkEvent "conflict" 1 (-0.8) "X" None.

(** The updater after [processEvent] was called with [eventA], [eventB] and
    [eventC], in that order, for the personality ["agent1"]. *)
Definition afterThreeEvents : PersonalityUpdater :=
  let u1 := (processEvent newUpdater acquaintanceOfX eventA).1 in
  let u2 := (processEvent u1 acquaintanceOfX eventB).1 in
  (processEvent u2 acquaintanceOfX eventC).1.

End Scenarios.

(** ** PersonalityStorage with object identity (personality_storage.ts) *)

(** The whole class, templates and [createPersonality] included.  A trait
    and a mood are objects: [createPersonality] copies the references a
    template holds, so that a personality created from a template has the
    template's own mood and trait objects.  The objects live in two stores
    indexed by references; a personality holds references.  The maps from
    trait names to traits and from agents to strengths are built anew by
    [createPersonality] and never written by the class: they are kept by
    value.  The records [PersonalityTrait], [Mood] and [PartialMood] and
    the writes [setValue] and [assignMood] are those of [Storage]. *)

Module StorageObjects.

Local Open Scope Q_scope.

Definition ref := nat.

Record Personality := mkPersonality {
  id : string;
  baseTraits : gmap string ref;
  adaptiveTraits : gmap string ref;
  mood : ref;
  relationships : gmap string Q
}.

(** [Partial<Personality>]. *)
Record Template := mkTemplate {
  t_id : option string;
  t_baseTraits : option (gmap string ref);
  t_adaptiveTraits : option (gmap string ref);
  t_mood : option ref;
  t_relationships : option (gmap string Q)
}.

Inductive Notification :=
| PersonalityCreated (agentId : string) (personality : Personality)
| TraitUpdated (agentId traitName : string) (value : Q) (isAdaptive : bool)
| MoodUpdated (agentId : string) (mood : ref).

(** A [Map] with string keys whose order of insertion is observed. *)
Fixpoint mapGet {V} (key : string) (m : list (string * V)) : option V :=
  match m with
  | [] => None
  | (k, v) :: rest => if String.eqb k key then Some v else mapGet key rest
  end.

(** [Map.prototype.set]: a key that is present keeps its place. *)
Fixpoint mapSet {V} (key : string) (v : V) (m : list (string * V))
  : list (string * V) :=
  match m with
  | [] => [(key, v)]
  | (k, v') :: rest =>
      if String.eqb k key then (k, v) :: rest else (k, v') :: mapSet key v rest
  end.

Record PersonalityStorage := mkStorage {
  traitObjects : gmap ref Storage.PersonalityTrait;
  moodObjects : gmap ref Storage.Mood;
  personalities : gmap string Personality;
  templates : list (string * Template);
  emitted : list Notification
}.

(** An object literal for a trait, or for a mood, is a new object. *)
Definition allocTrait (st : PersonalityStorage) (t : Storage.PersonalityTrait)
  : PersonalityStorage * ref :=
  let r := fresh (dom (traitObjects st)) in
  (mkStorage (<[r := t]> (traitObjects st)) (moodObjects st)
             (personalities st) (templates st) (emitted st), r).

Definition allocMood (st : PersonalityStorage) (m : Storage.Mood)
  : PersonalityStorage * ref :=
  let r := fresh (dom (moodObjects st)) in
  (mkStorage (traitObjects st) (<[r := m]> (moodObjects st))
             (personalities st) (templates st) (emitted st), r).

(** The template holds the caller's objects, by reference.  The class
    looks at none of their values: they are whatever the caller made them
    ([addTemplateLiteral] below has the caller's side). *)
Definition addTemplate (st : PersonalityStorage) (name : string)
    (template : Template) : PersonalityStorage :=
  mkStorage (traitObjects st) (moodObjects st) (personalities st)
            (mapSet name template (templates st)) (emitted st).

Definition getTemplates (st : PersonalityStorage) : list string :=
  map fst (templates st).

(** The object literal of a template that has base traits and a mood: the
    three traits and the mood are new objects. *)
Definition templateLiteral (st : PersonalityStorage)
    (t1 t2 t3 : Storage.PersonalityTrait) (m : Storage.Mood)
  : PersonalityStorage * Template :=
  let '(st1, r1) := allocTrait st t1 in
  let '(st2, r2) := allocTrait st1 t2 in
  let '(st3, r3) := allocTrait st2 t3 in
  let '(st4, rm) := allocMood st3 m in
  (st4,
   mkTemplate None
     (Some (<[Storage.name t3 := r3]>
              (<[Storage.name t2 := r2]> (<[Storage.name t1 := r1]> ∅))))
     None (Some rm) None).

(** The description of empathy is the sentence the source means; its
    quotes are unbalanced there. *)
Definition initializeTemplates (st : PersonalityStorage) : PersonalityStorage :=
  let '(st1, friendly) :=
    templateLiteral st
      (Storage.mkTrait "openness" 0.7 Storage.cognitive
         "Willingness to try new experiences")
      (Storage.mkTrait "empathy" 0.8 Storage.emotional
         "Ability to understand others' feelings")
      (Storage.mkTrait "sociability" 0.9 Storage.social
         "Tendency to seek social interaction")
      (Storage.mkMood 0.7 0.6 0.3 0.4) in
  let st2 := addTemplate st1 "friendly" friendly in
  let '(st3, analytical) :=
    templateLiteral st2
      (Storage.mkTrait "logic" 0.9 Storage.cognitive
         "Preference for logical thinking")
      (Storage.mkTrait "precision" 0.8 Storage.behavioral
         "Attention to detail")
      (Storage.mkTrait "curiosity" 0.7 Storage.cognitive
         "Drive to learn and understand")
      (Storage.mkMood 0.5 0.6 0.4 0.5) in
  addTemplate st3 "analytical" analytical.

(** [new PersonalityStorage()]. *)
Definition newStorage : PersonalityStorage :=
  initializeTemplates (mkStorage ∅ ∅ ∅ [] []).

(** A string is truthy when it is not empty. *)
Definition truthy (s : string) : bool := negb (String.eqb s "").

Definition createPersonality (st : PersonalityStorage) (agentId : string)
    (template : option string) : PersonalityStorage * Personality :=
  let '(st1, moodRef) := allocMood st (Storage.mkMood 0.5 0.5 0.5 0.5) in
  let personality := mkPersonality agentId ∅ ∅ moodRef ∅ in
  let personality' :=
    match template with
    | Some name =>
        if truthy name then
          match mapGet name (templates st1) with
          | Some templateData =>
              {| id := default (id personality) (t_id templateData);
                 baseTraits :=
                   baseTraits personality ∪ default ∅ (t_baseTraits templateData);
                 adaptiveTraits := ∅;
                 mood := default (mood personality) (t_mood templateData);
                 relationships :=
                   default (relationships personality)
                           (t_relationships templateData) |}
          | None => personality
          end
        else personality
    | None => personality
    end in
  (mkStorage (traitObjects st1) (moodObjects st1)
             (<[agentId := personality']> (personalities st1))
             (templates st1)
             (emitted st1 ++ [PersonalityCreated agentId personality']),
   personality').

Definition getPersonality (st : PersonalityStorage) (agentId : string)
  : option Personality :=
  personalities st !! agentId.

Definition traitMapOf (personality : Personality) (isAdaptive : bool)
  : gmap string ref :=
  if isAdaptive then adaptiveTraits personality else baseTraits personality.

(** A reference held by a personality or a template always has its object;
    the last branch of the two updates is there for totality only. *)
Definition updateTrait (st : PersonalityStorage) (agentId traitName : string)
    (v : Q) (isAdaptive : bool) : PersonalityStorage :=
  match personalities st !! agentId with
  | None => st
  | Some personality =>
      match traitMapOf personality isAdaptive !! traitName with
      | Some traitRef =>
          match traitObjects st !! traitRef with
          | Some trait =>
              mkStorage
                (<[traitRef := Storage.setValue trait (Qmax 0 (Qmin 1 v))]>
                   (traitObjects st))
                (moodObjects st) (personalities st) (templates st)
                (emitted st ++ [TraitUpdated agentId traitName v isAdaptive])
          | None => st
          end
      | None => st
      end
  end.

Definition updateMood (st : PersonalityStorage) (agentId : string)
    (moodUpdates : Storage.PartialMood) : PersonalityStorage :=
  match personalities st !! agentId with
  | None => st
  | Some personality =>
      match moodObjects st !! mood personality with
      | Some m =>
          mkStorage (traitObjects st)
            (<[mood personality := Storage.assignMood m moodUpdates]>
               (moodObjects st))
            (personalities st) (templates st)
            (emitted st ++ [MoodUpdated agentId (mood personality)])
      | None => st
      end
  end.

(** What a reader of [getPersonality(agentId)] sees behind the references. *)
Definition moodOf (st : PersonalityStorage) (agentId : string)
  : option Storage.Mood :=
  match personalities st !! agentId with
  | Some personality => moodObjects st !! mood personality
  | None => None
  end.

Definition traitOf (st : PersonalityStorage) (agentId : string)
    (isAdaptive : bool) (traitName : string) : option Storage.PersonalityTrait :=
  match personalities st !! agentId with
  | Some personality =>
      match traitMapOf personality isAdaptive !! traitName with
      | Some traitRef => traitObjects st !! traitRef
      | None => None
      end
  | None => None
  end.

(** The caller's side of [addTemplate]: a template written as an object
    literal, whose traits and mood are new objects holding the values the
    caller wrote, whatever they are.  A trait map is built from its
    entries in order, a later entry replacing an earlier one that has the
    same key. *)
Record TemplateLiteral := mkTemplateLiteral {
  l_id : option string;
  l_baseTraits : option (list (string * Storage.PersonalityTrait));
  l_adaptiveTraits : option (list (string * Storage.PersonalityTrait));
  l_mood : option Storage.Mood;
  l_relationships : option (gmap string Q)
}.

Fixpoint allocTraits (st : PersonalityStorage)
    (entries : list (string * Storage.PersonalityTrait)) (acc : gmap string ref)
  : PersonalityStorage * gmap string ref :=
  match entries with
  | [] => (st, acc)
  | (key, t) :: rest =>
      allocTraits (allocTrait st t).1 rest (<[key := (allocTrait st t).2]> acc)
  end.

Definition allocTraitMap (st : PersonalityStorage)
    (entries : option (list (string * Storage.PersonalityTrait)))
  : PersonalityStorage * option (gmap string ref) :=
  match entries with
  | Some es => ((allocTraits st es ∅).1, Some (allocTraits st es ∅).2)
  | None => (st, None)
  end.

Definition allocOptionalMood (st : PersonalityStorage) (m : option Storage.Mood)
  : PersonalityStorage * option ref :=
  match m with
  | Some m => ((allocMood st m).1, Some (allocMood st m).2)
  | None => (st, None)
  end.

Definition templateOfLiteral (st : PersonalityStorage) (l : TemplateLiteral)
  : PersonalityStorage * Template :=
  let b := allocTraitMap st (l_baseTraits l) in
  let a := allocTraitMap b.1 (l_adaptiveTraits l) in
  let m := allocOptionalMood a.1 (l_mood l) in
  (m.1, mkTemplate (l_id l) b.2 a.2 m.2 (l_relationships l)).

(** [addTemplate(name, { ... })]. *)
Definition addTemplateLiteral (st : PersonalityStorage) (name : string)
    (l : TemplateLiteral) : PersonalityStorage :=
  addTemplate (templateOfLiteral st l).1 name (templateOfLiteral st l).2.

End StorageObjects.

(** Calls on the store with object identity, as data.  A template is
    given to [addTemplate] either with objects that are already in use
    (the references of [ObjAddTemplate]) or as an object literal with new
    objects ([ObjAddTemplateLiteral]). *)
Inductive ObjectStoreCall :=
| ObjCreatePersonality (agentId : string) (template : option string)
| ObjUpdateTrait (agentId traitName : string) (v : Q) (isAdaptive : bool)
| ObjUpdateMood (agentId : string) (moodUpdates : Storage.PartialMood)
| ObjAddTemplate (name : string) (template : StorageObjects.Template)
| ObjAddTemplateLiteral (name : string) (l : StorageObjects.TemplateLiteral).

Definition runObjectStoreCall (st : StorageObjects.PersonalityStorage)
    (call : ObjectStoreCall) : StorageObjects.PersonalityStorage :=
  match call with
  | ObjCreatePersonality agentId template =>
      (StorageObjects.createPersonality st agentId template).1
  | ObjUpdateTrait agentId traitName v isAdaptive =>
      StorageObjects.updateTrait st agentId traitName v isAdaptive
  | ObjUpdateMood agentId moodUpdates =>
      StorageObjects.updateMood st agentId moodUpdates
  | ObjAddTemplate name template => StorageObjects.addTemplate st name template
  | ObjAddTemplateLiteral name l => StorageObjects.addTemplateLiteral st name l
  end.

Definition runObjectStoreCalls (st : StorageObjects.PersonalityStorage)
    (calls : list ObjectStoreCall) : StorageObjects.PersonalityStorage :=
  fold_left runObjectStoreCall calls st.

(** Every trait and mood object holds values of [0, 1]. *)
Definition objectsInRange (st : StorageObjects.PersonalityStorage) : Prop :=
  map_Forall (fun _ t => (0 <= Storage.value t <= 1)%Q)
             (StorageObjects.traitObjects st)
  /\ map_Forall
       (fun _ m =>
          (0 <= Storage.happiness m <= 1)%Q /\ (0 <= Storage.energy m <= 1)%Q
          /\ (0 <= Storage.stress m <= 1)%Q /\ (0 <= Storage.dominance m <= 1)%Q)
       (StorageObjects.moodObjects st).

(** The values a template literal brings are in [0, 1]. *)
Definition literalInRange (l : StorageObjects.TemplateLiteral) : Prop :=
  (forall es, StorageObjects.l_baseTraits l = Some es ->
     Forall (fun e => (0 <= Storage.value e.2 <= 1)%Q) es)
  /\ (forall es, StorageObjects.l_adaptiveTraits l = Some es ->
        Forall (fun e => (0 <= Storage.value e.2 <= 1)%Q) es)
  /\ (forall m, StorageObjects.l_mood l = Some m ->
        (0 <= Storage.happiness m <= 1)%Q /\ (0 <= Storage.energy m <= 1)%Q
        /\ (0 <= Storage.stress m <= 1)%Q /\ (0 <= Storage.dominance m <= 1)%Q).

(** A call that brings no out-of-range object of the caller's. *)
Definition tameObjectCall (call : ObjectStoreCall) : Prop :=
  match call with
  | ObjAddTemplateLiteral _ l => literalInRange l
  | _ => True
  end.

(** A template whose mood and trait hold values far outside [0, 1]. *)
Definition wildLiteral : StorageObjects.TemplateLiteral :=
  StorageObjects.mkTemplateLiteral None
    (Some [("temper", Storage.mkTrait "temper" (-3) Storage.emotional "untamed")])
    None (Some (Storage.mkMood 7 0.5 0.5 0.5)) None.

(** ** Game state and its manager (engine.ts, part_004) *)

(** The values of [metadata] and [settings] are opaque: a string stands
    for each.  A subscriber is a function object; the model keeps its
    identity and asks the environment, through [throws], whether a call of
    it raises.  Subscribers are taken not to call back into the manager
    while they are notified. *)

Module Engine.

Local Open Scope Q_scope.

Record Vector3 := mkVector3 { x : Q; y : Q; z : Q }.

Record AgentState := mkAgentState {
  id : string;
  position : Vector3;
  status : string;
  metadata : gmap string string
}.

(** [Partial<AgentState>]. *)
Record PartialAgentState := mkPartialAgentState {
  p_id : option string;
  p_position : option Vector3;
  p_status : option string;
  p_metadata : option (gmap string string)
}.

Record Entity := mkEntity {
  e_id : string;
  e_type : string;
  e_position : Vector3;
  e_metadata : gmap string string
}.

Record Environment := mkEnvironment {
  time : Z;
  weather : string;
  settings : gmap string string
}.

Record WorldState := mkWorldState {
  entities : gmap string Entity;
  environment : Environment;
  w_timestamp : Z
}.

(** [Partial<WorldState>]. *)
Record PartialWorldState := mkPartialWorldState {
  p_entities : option (gmap string Entity);
  p_environment : option Environment;
  p_timestamp : option Z
}.

Record GameState := mkGameState {
  agents : gmap string AgentState;
  world : WorldState;
  timestamp : Z;
  version : string
}.

End Engine.

Module StateManager.

Import Engine.
Local Open Scope Q_scope.

Definition Callback := nat.

(** What [notify] hands to the subscribers. *)
Inductive Update :=
| AgentUpdate (id : string) (newState : AgentState)
| WorldUpdate (world : WorldState).

(** What a notification does outside the manager: a call of a subscriber,
    and the [console.error] of the catch block. *)
Inductive Effect :=
| Called (callback : Callback) (update : Update)
| ErrorLogged (callback : Callback).

Record StateManager := mkStateManager {
  state : GameState;
  subscribers : gmap string (list Callback);
  effects : list Effect
}.


(** [Set.prototype.add] and [Set.prototype.delete], in insertion order. *)
Definition setAdd (callback : Callback) (set : list Callback) : list Callback :=
  if bool_decide (callback ∈ set) then set else set ++ [callback].

Definition setDelete (callback : Callback) (set : list Callback) : list Callback :=
  List.filter (fun c => negb (Nat.eqb c callback)) set.

Definition notify (throws : Callback -> Update -> bool) (m : StateManager)
    (type : string) (update : Update) : StateManager :=
  match subscribers m !! type with
  | None => m
  | Some set =>
      mkStateManager (state m) (subscribers m)
        (effects m ++
         flat_map
           (fun callback =>
              if throws callback update
              then [Called callback update; ErrorLogged callback]
              else [Called callback update])
           set)
  end.

(** [{ ...currentState, ...state }]. *)
Definition mergeAgent (currentState : AgentState) (s : PartialAgentState)
  : AgentState :=
  {| id := default (id currentState) (p_id s);
     position := default (position currentState) (p_position s);
     status := default (status currentState) (p_status s);
     metadata := default (metadata currentState) (p_metadata s) |}.

Definition updateAgent (throws : Callback -> Update -> bool) (m : StateManager)
    (agentId : string) (s : PartialAgentState) : StateManager :=
  let currentState :=
    default (mkAgentState agentId (mkVector3 0 0 0) "idle" ∅)
            (agents (state m) !! agentId) in
  let newState := mergeAgent currentState s in
  let m' :=
    mkStateManager
      (mkGameState (<[agentId := newState]> (agents (state m)))
                   (world (state m)) (timestamp (state m)) (version (state m)))
      (subscribers m) (effects m) in
  notify throws m' "agent" (AgentUpdate agentId newState).

Definition mergeWorld (w : WorldState) (update : PartialWorldState) : WorldState :=
  {| entities := default (entities w) (p_entities update);
     environment := default (environment w) (p_environment update);
     w_timestamp := default (w_timestamp w) (p_timestamp update) |}.

Definition updateWorld (throws : Callback -> Update -> bool) (m : StateManager)
    (update : PartialWorldState) : StateManager :=
  let w := mergeWorld (world (state m)) update in
  let m' :=
    mkStateManager
      (mkGameState (agents (state m)) w (timestamp (state m)) (version (state m)))
      (subscribers m) (effects m) in
  notify throws m' "world" (WorldUpdate w).

Definition subscribe (m : StateManager) (type : string) (callback : Callback)
  : StateManager :=
  let subs :=
    match subscribers m !! type with
    | Some _ => subscribers m
    | None => <[type := []]> (subscribers m)
    end in
  mkStateManager (state m)
    (<[type := setAdd callback (default [] (subs !! type))]> subs)
    (effects m).

(** The function that [subscribe] returns: it deletes the callback from the
    set of that type. *)
Definition unsubscribe (m : StateManager) (type : string) (callback : Callback)
  : StateManager :=
  match subscribers m !! type with
  | Some set =>
      mkStateManager (state m)
        (<[type := setDelete callback set]> (subscribers m)) (effects m)
  | None => m
  end.

Definition getState (m : StateManager) : GameState := state m.

(** The subscribers called by a list of effects, in order. *)
Definition calls (es : list Effect) : list (Callback * Update) :=
  flat_map (fun e => match e with
                     | Called c u => [(c, u)]
                     | ErrorLogged _ => []
                     end) es.

Definition errors (es : list Effect) : list Callback :=
  flat_map (fun e => match e with
                     | Called _ _ => []
                     | ErrorLogged c => [c]
                     end) es.


End StateManager.

(** ** NetworkManager: queue and reconnection (part_001, part_006) *)

(** The socket is the environment's; the manager sees it as absent or
    through its [readyState].  [sent] lists the messages handed to
    [socket.send], as they are before [JSON.stringify].  The k-th reading of
    [Date.now()] is [clock k].  The payload [data] is opaque: a string
    stands for it. *)

Module Network.

Local Open Scope Q_scope.

Record NetworkMessage := mkNetworkMessage {
  type : string;
  data : string;
  timestamp : Z;
  sender : string
}.

Record NetworkConfig := mkNetworkConfig {
  url : string;
  c_reconnectAttempts : Q;
  reconnectDelay : Q;
  heartbeatInterval : Q
}.

Inductive ReadyState := CONNECTING | OPEN | CLOSING | CLOSED.

Record NetworkManager := mkNetworkManager {
  socket : option ReadyState;
  messageQueue : list NetworkMessage;
  config : NetworkConfig;
  reconnectAttempts : Z;
  sent : list NetworkMessage;
  ticks : nat
}.

(** [new NetworkManager(config)]. *)
Definition newNetworkManager (config : NetworkConfig) : NetworkManager :=
  mkNetworkManager None [] config 0 [] 0.

(** [this.socket?.readyState === WebSocket.OPEN]. *)
Definition isOpen (m : NetworkManager) : bool :=
  match socket m with
  | Some OPEN => true
  | _ => false
  end.

Definition send (clock : nat -> Z) (m : NetworkManager) (type data : string)
  : NetworkManager :=
  let message := mkNetworkMessage type data (clock (ticks m)) "client" in
  if isOpen m
  then mkNetworkManager (socket m) (messageQueue m) (config m)
         (reconnectAttempts m) (sent m ++ [message]) (S (ticks m))
  else mkNetworkManager (socket m) (messageQueue m ++ [message]) (config m)
         (reconnectAttempts m) (sent m) (S (ticks m)).

(** The loop of [flushMessageQueue]; [fuel] bounds the number of turns, and
    [None] says that the loop has not ended within them. *)
Fixpoint flushMessageQueue (fuel : nat) (clock : nat -> Z) (m : NetworkManager)
  : option NetworkManager :=
  match messageQueue m with
  | [] => Some m
  | message :: rest =>
      match fuel with
      | O => None
      | S fuel' =>
          flushMessageQueue fuel' clock
            (send clock
               (mkNetworkManager (socket m) rest (config m)
                  (reconnectAttempts m) (sent m) (ticks m))
               (type message) (data message))
      end
  end.

(** [handleReconnect] up to its wait: the new state and the delay it waits
    before calling [connect], or no delay when it gives up. *)
Definition handleReconnect (m : NetworkManager) : NetworkManager * option Q :=
  if Qle_bool (c_reconnectAttempts (config m)) (inject_Z (reconnectAttempts m))
  then (m, None)
  else
    let attempts := (reconnectAttempts m + 1)%Z in
    (mkNetworkManager (socket m) (messageQueue m) (config m) attempts
       (sent m) (ticks m),
     Some (reconnectDelay (config m) * inject_Z attempts)).

(** [disconnect], as far as the socket reference goes. *)
Definition disconnect (m : NetworkManager) : NetworkManager :=
  mkNetworkManager None (messageQueue m) (config m) (reconnectAttempts m)
    (sent m) (ticks m).

(** [handleReconnect] called [n] times in a row, no connection succeeding
    in between, with the delay of each call. *)
Fixpoint handleReconnects (n : nat) (m : NetworkManager)
  : NetworkManager * list (option Q) :=
  match n with
  | O => (m, [])
  | S n' =>
      let '(m1, d) := handleReconnect m in
      let '(m2, ds) := handleReconnects n' m1 in
      (m2, d :: ds)
  end.

(** The messages of a queue as [send] builds them again at the readings
    [t], [t + 1], ... of the clock. *)
Fixpoint restamp (clock : nat -> Z) (t : nat) (queue : list NetworkMessage)
  : list NetworkMessage :=
  match queue with
  | [] => []
  | message :: rest =>
      mkNetworkMessage (type message) (data message) (clock t) "client"
        :: restamp clock (S t) rest
  end.

End Network.

(** ** Runs of events *)

(** [processEvent] called once per event of a list, in order, for the same
    personality; only the updater changes from call to call. *)
Definition processEvents (u : Updater.PersonalityUpdater)
    (p : Storage.Personality) (events : list Updater.EmotionalEvent)
  : Updater.PersonalityUpdater :=
  fold_left (fun u e => (Updater.processEvent u p e).1) events u.

(** ** Further concrete inputs *)

Section MoreScenarios.

Import Connect.
Local Open Scope Q_scope.

(** A rule that halves the trust of every interaction of type betrayal. *)
Definition halveTrustOnBetrayal : ConnectionRule :=
  {| condition := fun i => String.eqb (type i) "betrayal";
     rule_impact := fun _ current =>
       mkPartial None (Some (trust current * 0.5)) None None |}.

(** A manager whose socket is open and that still holds two messages
    queued while it was not. *)
Definition openWithBacklog : Network.NetworkManager :=
  Network.mkNetworkManager (Some Network.OPEN)
    [Network.mkNetworkMessage "move" "north" 10 "client";
     Network.mkNetworkMessage "say" "hello" 11 "client"]
    (Network.mkNetworkConfig "ws://localhost:8080" 5 1000 30000)
    0 [] 2.

(** The same queue behind a socket that is still connecting. *)
Definition connectingWithBacklog : Network.NetworkManager :=
  Network.mkNetworkManager (Some Network.CONNECTING)
    [Network.mkNetworkMessage "move" "north" 10 "client";
     Network.mkNetworkMessage "say" "hello" 11 "client"]
    (Network.mkNetworkConfig "ws://localhost:8080" 5 1000 30000)
    0 [] 2.

(** A clock that reads 100, 101, 102, ... *)
Definition steadyClock (k : nat) : Z := (100 + Z.of_nat k)%Z.

End MoreScenarios.

(** * Properties *)

(** ** Comparisons and clamping *)

Section NumFacts.

Local Open Scope Q_scope.

Lemma gtb_true (x y : Q) : Num.gtb x y = true <-> y < x.
Proof.
  unfold Num.gtb. rewrite negb_true_iff.
  split; intros H.
  - apply Qnot_le_lt. intros Hle. apply Qle_bool_iff in Hle. congruence.
  - destruct (Qle_bool x y) eqn:E; [|reflexivity].
    apply Qle_bool_iff in E. lra.
Qed.

Lemma gtb_false (x y : Q) : Num.gtb x y = false <-> x <= y.
Proof.
  unfold Num.gtb. rewrite negb_false_iff. apply Qle_bool_iff.
Qed.

Lemma ltb_true (x y : Q) : Num.ltb x y = true <-> x < y.
Proof. apply (gtb_true y x). Qed.

Lemma ltb_false (x y : Q) : Num.ltb x y = false <-> y <= x.
Proof. apply (gtb_false y x). Qed.

Lemma orZero_eq (x : Q) : Num.orZero x == x.
Proof.
  unfold Num.orZero. destruct (Qeq_bool x 0) eqn:E; [|reflexivity].
  apply Qeq_bool_eq in E. lra.
Qed.

Lemma Qmin_cases (x y : Q) :
  (x <= y /\ Qmin x y == x) \/ (y <= x /\ Qmin x y == y).
Proof.
  destruct (Q.min_spec x y) as [[H E]|[H E]]; [left|right]; split; trivial; lra.
Qed.

Lemma Qmax_cases (x y : Q) :
  (x <= y /\ Qmax x y == y) \/ (y <= x /\ Qmax x y == x).
Proof.
  destruct (Q.max_spec x y) as [[H E]|[H E]]; [left|right]; split; trivial; lra.
Qed.

Lemma clamp_range (lo hi x : Q) :
  lo <= hi -> lo <= Num.clamp lo hi x <= hi.
Proof.
  intros H. unfold Num.clamp.
  destruct (Qmin_cases hi x) as [[? E1]|[? E1]];
    destruct (Qmax_cases lo (Qmin hi x)) as [[? E2]|[? E2]]; lra.
Qed.

Lemma clamp_id (lo hi x : Q) :
  lo <= x <= hi -> Num.clamp lo hi x == x.
Proof.
  intros H. unfold Num.clamp.
  destruct (Qmin_cases hi x) as [[? E1]|[? E1]];
    destruct (Qmax_cases lo (Qmin hi x)) as [[? E2]|[? E2]]; lra.
Qed.

Lemma clamp_compat (lo hi x y : Q) :
  x == y -> Num.clamp lo hi x == Num.clamp lo hi y.
Proof.
  intros H. unfold Num.clamp.
  destruct (Qmin_cases hi x) as [[? E1]|[? E1]];
    destruct (Qmax_cases lo (Qmin hi x)) as [[? E2]|[? E2]];
    destruct (Qmin_cases hi y) as [[? E3]|[? E3]];
    destruct (Qmax_cases lo (Qmin hi y)) as [[? E4]|[? E4]]; lra.
Qed.

End NumFacts.

(** Name every [Qmin] and [Qmax] of the goal and of the hypotheses, split on
    which argument it equals, and leave the rest to linear arithmetic. *)
Ltac name_extremum cases a b e :=
  let H := fresh "H" in
  let q := fresh "q" in
  pose proof (cases a b) as H;
  set (q := e) in *; clearbody q;
  destruct H as [[? ?]|[? ?]].

Ltac minmax_step :=
  match goal with
  | |- context [Qmin ?a ?b] => name_extremum Qmin_cases a b (Qmin a b)
  | |- context [Qmax ?a ?b] => name_extremum Qmax_cases a b (Qmax a b)
  | _ : context [Qmin ?a ?b] |- _ => name_extremum Qmin_cases a b (Qmin a b)
  | _ : context [Qmax ?a ?b] |- _ => name_extremum Qmax_cases a b (Qmax a b)
  end.

Ltac minmax := repeat minmax_step; try lra.

(** ** ConnectionManager *)

Section ConnectFacts.

Import Connect.
Local Open Scope Q_scope.

Implicit Types (m : ConnectionManager) (i : AgentInteraction)
               (c : ConnectionStrength).

Lemma rules_newManager : rules newManager = [positiveRule; negativeRule].
Proof. reflexivity. Qed.

Lemma getConnection_connect m s t init now :
  getConnection (connect m s t init now) s t =
    Some {| value := default 0 (p_value init);
            trust := default 0.1 (p_trust init);
            familiarity := default 0 (p_familiarity init);
            lastInteraction := now |}.
Proof.
  unfold getConnection, connect. simpl.
  rewrite lookup_insert_eq. apply lookup_insert_eq.
Qed.

Lemma rules_connect m s t init now : rules (connect m s t init now) = rules m.
Proof. reflexivity. Qed.

Lemma rules_disconnect m s t : rules (disconnect m s t) = rules m.
Proof. reflexivity. Qed.

Lemma rules_recordInteraction m i : rules (recordInteraction m i) = rules m.
Proof.
  unfold recordInteraction.
  destruct (getConnection m (sourceId i) (targetId i)); reflexivity.
Qed.

(** The history entry of the pair after [recordInteraction], whether or
    not a connection exists. *)
Lemma history_recordInteraction m i :
  interactionHistory (recordInteraction m i) !! historyKey i =
    Some (default [] (interactionHistory m !! historyKey i) ++ [i]).
Proof.
  unfold recordInteraction.
  assert (Hh : forall h : gmap string (list AgentInteraction),
    <[historyKey i :=
        default [] (match h !! historyKey i with
                    | Some _ => h
                    | None => <[historyKey i := []]> h
                    end !! historyKey i) ++ [i]]>
      (match h !! historyKey i with
       | Some _ => h
       | None => <[historyKey i := []]> h
       end) !! historyKey i
    = Some (default [] (h !! historyKey i) ++ [i])).
  { intros h. rewrite lookup_insert_eq.
    destruct (h !! historyKey i) eqn:E.
    - rewrite E. reflexivity.
    - rewrite lookup_insert_eq. reflexivity. }
  destruct (getConnection m (sourceId i) (targetId i)); simpl; apply Hh.
Qed.

(** C8: recording an interaction for a pair without a connection appends
    it to the history kept under that pair's key and leaves the connection
    map, the rules and the notification trace as they were;
    [getConnection] still answers absent.  The method is a total function:
    this path has no failure outcome. *)
Theorem C8_recordInteraction_without_connection m i :
  getConnection m (sourceId i) (targetId i) = None ->
  interactionHistory (recordInteraction m i) !! historyKey i =
    Some (default [] (interactionHistory m !! historyKey i) ++ [i])
  /\ connections (recordInteraction m i) = connections m
  /\ getConnection (recordInteraction m i) (sourceId i) (targetId i) = None
  /\ rules (recordInteraction m i) = rules m
  /\ emitted (recordInteraction m i) = emitted m.
Proof.
  intros Hnone. split; [apply history_recordInteraction|].
  unfold recordInteraction. rewrite Hnone. simpl.
  repeat split; trivial.
Qed.

Lemma C8_recordInteraction_without_connection_witness :
  getConnection newManager (sourceId friendlyInteraction)
    (targetId friendlyInteraction) = None
  /\ interactionHistory (recordInteraction newManager friendlyInteraction)
       !! historyKey friendlyInteraction
     = Some (default [] (interactionHistory newManager
                           !! historyKey friendlyInteraction)
             ++ [friendlyInteraction])
  /\ connections (recordInteraction newManager friendlyInteraction)
     = connections newManager
  /\ getConnection (recordInteraction newManager friendlyInteraction)
       (sourceId friendlyInteraction) (targetId friendlyInteraction) = None
  /\ rules (recordInteraction newManager friendlyInteraction)
     = rules newManager
  /\ emitted (recordInteraction newManager friendlyInteraction)
     = emitted newManager.
Proof.
  split; [reflexivity|].
  apply (C8_recordInteraction_without_connection newManager friendlyInteraction).
  reflexivity.
Defined.

(** C10: [disconnect] always sends the [Disconnected] notification, and
    when the pair has no connection the connection map is unchanged. *)
Theorem C10_disconnect_always_emits m (s t : string) :
  emitted (disconnect m s t) = emitted m ++ [Disconnected s t]
  /\ (getConnection m s t = None ->
      connections (disconnect m s t) = connections m).
Proof.
  split; [reflexivity|].
  unfold getConnection, disconnect. simpl.
  destruct (connections m !! s) as [inner|] eqn:E; [|reflexivity].
  intros Hnone. rewrite (delete_id _ _ Hnone). apply insert_id, E.
Qed.

Lemma C10_disconnect_always_emits_witness :
  getConnection otherTarget "a" "b" = None
  /\ emitted (disconnect otherTarget "a" "b")
     = emitted otherTarget ++ [Disconnected "a" "b"]
  /\ connections (disconnect otherTarget "a" "b") = connections otherTarget.
Proof.
  assert (H : getConnection otherTarget "a" "b" = None) by reflexivity.
  split; [exact H|]. split.
  - exact (proj1 (C10_disconnect_always_emits otherTarget "a" "b")).
  - exact (proj2 (C10_disconnect_always_emits otherTarget "a" "b") H).
Defined.

Lemma getConnection_recordInteraction m i c :
  getConnection m (sourceId i) (targetId i) = Some c ->
  getConnection (recordInteraction m i) (sourceId i) (targetId i) =
    Some (setLastInteraction (applyRules (rules m) i c) (timestamp i)).
Proof.
  intros Hc. unfold recordInteraction. rewrite Hc.
  unfold getConnection. simpl.
  rewrite lookup_insert_eq. apply lookup_insert_eq.
Qed.

Lemma applyRules_default_positive i c :
  0 < connectionStrength (impact i) ->
  applyRules [positiveRule; negativeRule] i c =
    assign c (rule_impact positiveRule i c).
Proof.
  intros Hpos. unfold applyRules. simpl.
  assert (Hg : Num.gtb (connectionStrength (impact i)) 0 = true)
    by (apply gtb_true; exact Hpos).
  assert (Hl : Num.ltb (connectionStrength (impact i)) 0 = false)
    by (apply ltb_false; lra).
  rewrite Hg, Hl. reflexivity.
Qed.

Lemma applyRules_default_negative i c :
  connectionStrength (impact i) < 0 ->
  applyRules [positiveRule; negativeRule] i c =
    assign c (rule_impact negativeRule i c).
Proof.
  intros Hneg. unfold applyRules. simpl.
  assert (Hg : Num.gtb (connectionStrength (impact i)) 0 = false)
    by (apply gtb_false; lra).
  assert (Hl : Num.ltb (connectionStrength (impact i)) 0 = true)
    by (apply ltb_true; exact Hneg).
  rewrite Hg, Hl. reflexivity.
Qed.

Lemma applyRules_default_zero i c :
  connectionStrength (impact i) == 0 ->
  applyRules [positiveRule; negativeRule] i c = c.
Proof.
  intros Hz. unfold applyRules. simpl.
  assert (Hg : Num.gtb (connectionStrength (impact i)) 0 = false)
    by (apply gtb_false; lra).
  assert (Hl : Num.ltb (connectionStrength (impact i)) 0 = false)
    by (apply ltb_false; lra).
  rewrite Hg, Hl. reflexivity.
Qed.

(** C1, evaluated: on a connection created with the defaults, one positive
    interaction whose trust and familiarity impacts are negative leaves
    trust and familiarity below 0; the positive rule only caps at 1. *)
Theorem C1_recordInteraction_leaves_range :
  exists c,
    getConnection (recordInteraction defaultPair mixedSignInteraction) "a" "b"
      = Some c
    /\ trust c == -0.9 /\ familiarity c == -1 /\ value c == 0.5
    /\ ~ unitInterval (trust c) /\ ~ unitInterval (familiarity c).
Proof.
  eexists. split; [vm_compute; reflexivity|].
  cbn [trust familiarity value].
  repeat split; try reflexivity;
    intros [H _]; vm_compute in H; apply H; reflexivity.
Qed.

(** C4 as stated fails: a positive interaction whose trust impact is
    negative lowers the trust of the connection. *)
Lemma C4_counterexample :
  0 < connectionStrength (impact slightlyNegativeTrust)
  /\ exists c c',
      getConnection defaultPair "a" "b" = Some c
      /\ getConnection (recordInteraction defaultPair slightlyNegativeTrust)
           "a" "b" = Some c'
      /\ trust c == 0.1 /\ trust c' == 0.05
      /\ ~ trust c <= trust c'.
Proof.
  split; [reflexivity|].
  do 2 eexists. split; [vm_compute; reflexivity|].
  split; [vm_compute; reflexivity|].
  cbn [trust]. repeat split; try reflexivity.
  intros H. vm_compute in H. apply H. reflexivity.
Qed.

(** C4, amended: under the two default rules, a positive interaction
    against an existing connection leaves trust, value and familiarity at
    most 1; value does not decrease when it was at most 1, and trust and
    familiarity do not decrease when their impact is not negative and they
    were at most 1. *)
Theorem C4_positive_interaction m i c :
  rules m = [positiveRule; negativeRule] ->
  getConnection m (sourceId i) (targetId i) = Some c ->
  0 < connectionStrength (impact i) ->
  exists c',
    getConnection (recordInteraction m i) (sourceId i) (targetId i) = Some c'
    /\ trust c' <= 1 /\ value c' <= 1 /\ familiarity c' <= 1
    /\ (value c <= 1 -> value c <= value c')
    /\ (0 <= impact_trust (impact i) -> trust c <= 1 -> trust c <= trust c')
    /\ (0 <= impact_familiarity (impact i) -> familiarity c <= 1 ->
        familiarity c <= familiarity c').
Proof.
  intros Hrules Hc Hpos.
  eexists. split; [apply getConnection_recordInteraction, Hc|].
  rewrite Hrules, applyRules_default_positive by exact Hpos. simpl.
  repeat split; intros; minmax.
Qed.

Lemma C4_positive_interaction_witness :
  rules defaultPair = [positiveRule; negativeRule]
  /\ getConnection defaultPair (sourceId friendlyInteraction)
       (targetId friendlyInteraction)
     = Some (mkConnectionStrength 0 0.1 0 0)
  /\ 0 < connectionStrength (impact friendlyInteraction)
  /\ exists c',
       getConnection (recordInteraction defaultPair friendlyInteraction)
         (sourceId friendlyInteraction) (targetId friendlyInteraction) = Some c'
       /\ trust c' <= 1 /\ value c' <= 1 /\ familiarity c' <= 1
       /\ (0 <= 1 -> 0 <= value c')
       /\ (0 <= 0.2 -> 0.1 <= 1 -> 0.1 <= trust c')
       /\ (0 <= 0.3 -> 0 <= 1 -> 0 <= familiarity c').
Proof.
  assert (Hr : rules defaultPair = [positiveRule; negativeRule]) by reflexivity.
  assert (Hc : getConnection defaultPair (sourceId friendlyInteraction)
                 (targetId friendlyInteraction)
               = Some (mkConnectionStrength 0 0.1 0 0)) by reflexivity.
  assert (Hp : 0 < connectionStrength (impact friendlyInteraction))
    by reflexivity.
  split; [exact Hr|]. split; [exact Hc|]. split; [exact Hp|].
  exact (C4_positive_interaction defaultPair friendlyInteraction
           (mkConnectionStrength 0 0.1 0 0) Hr Hc Hp).
Defined.

(** C9, evaluated: [connect] stores the initial overrides as they are
    given; a value of 5, a trust of 2 and a familiarity of -1 are not
    clamped. *)
Theorem C9_connect_stores_overrides_unclamped :
  exists c,
    getConnection (connect newManager "a" "b" outOfRangeOverrides 0) "a" "b"
      = Some c
    /\ c = mkConnectionStrength 5 2 (-1) 0
    /\ ~ value c == Num.clamp (-1) 1 5
    /\ ~ trust c == Num.clamp 0 1 2
    /\ ~ familiarity c == Num.clamp 0 1 (-1)
    /\ ~ connectionInRange c.
Proof.
  eexists. split; [apply getConnection_connect|].
  split; [reflexivity|]. cbn [value trust familiarity].
  repeat split; try (intros H; vm_compute in H; discriminate H).
  intros ([_ H] & _). cbn in H. lra.
Qed.

(** *** Ranges of the connection fields *)

Lemma applyRules_default_range i c :
  connectionInRange c -> alignedImpact i ->
  connectionInRange (applyRules [positiveRule; negativeRule] i c).
Proof.
  intros (Hv & Ht & Hf) [Hpos Hneg].
  unfold connectionInRange, unitInterval, signedUnitInterval in *.
  destruct (Qlt_le_dec 0 (connectionStrength (impact i))) as [Hp|Hp].
  - rewrite applyRules_default_positive by exact Hp.
    destruct (Hpos Hp). simpl. repeat split; minmax.
  - destruct (Qlt_le_dec (connectionStrength (impact i)) 0) as [Hn|Hn].
    + rewrite applyRules_default_negative by exact Hn.
      specialize (Hneg Hn). simpl. repeat split; minmax.
    + rewrite applyRules_default_zero by lra. repeat split; lra.
Qed.

Lemma getConnection_recordInteraction_other m i (s t : string) :
  s <> sourceId i \/ t <> targetId i ->
  getConnection (recordInteraction m i) s t = getConnection m s t.
Proof.
  intros Hne. unfold recordInteraction.
  destruct (getConnection m (sourceId i) (targetId i)) as [c|] eqn:Hc;
    [|reflexivity].
  unfold getConnection in *. simpl.
  destruct (connections m !! sourceId i) as [inner|] eqn:Hi; [|discriminate].
  simpl. destruct (decide (s = sourceId i)) as [->|Hs].
  - rewrite lookup_insert_eq, Hi.
    destruct Hne as [Hne|Hne]; [congruence|].
    apply lookup_insert_ne. congruence.
  - rewrite lookup_insert_ne by congruence. reflexivity.
Qed.

(** With the default rules and impacts that point the same way as the
    connection strength, [recordInteraction] keeps every connection in
    range. *)
Lemma recordInteraction_preserves_range m i :
  rules m = [positiveRule; negativeRule] ->
  managerInRange m -> alignedImpact i ->
  managerInRange (recordInteraction m i).
Proof.
  intros Hrules Hm Hi s t c Hc.
  destruct (decide (s = sourceId i)) as [->|Hs];
    [destruct (decide (t = targetId i)) as [->|Ht]|].
  - destruct (getConnection m (sourceId i) (targetId i)) as [c0|] eqn:E.
    + rewrite (getConnection_recordInteraction _ _ _ E), Hrules in Hc.
      injection Hc as <-.
      apply (applyRules_default_range i c0); [apply (Hm _ _ _ E)|exact Hi].
    + unfold recordInteraction in Hc. rewrite E in Hc.
      unfold getConnection in *. simpl in Hc. congruence.
  - rewrite getConnection_recordInteraction_other in Hc by (right; exact Ht).
    apply (Hm _ _ _ Hc).
  - rewrite getConnection_recordInteraction_other in Hc by (left; exact Hs).
    apply (Hm _ _ _ Hc).
Qed.

Lemma newManager_in_range : managerInRange newManager.
Proof. intros s t c Hc. unfold getConnection in Hc. simpl in Hc.
  rewrite lookup_empty in Hc. discriminate.
Qed.

Lemma getConnection_connect_other m (s t : string) init now (s' t' : string) :
  s' <> s \/ t' <> t ->
  getConnection (connect m s t init now) s' t' = getConnection m s' t'.
Proof.
  intros Hne. unfold getConnection, connect. simpl.
  destruct (decide (s' = s)) as [->|Hs].
  - rewrite lookup_insert_eq.
    destruct Hne as [Hne|Hne]; [congruence|].
    rewrite lookup_insert_ne by congruence.
    destruct (connections m !! s) as [inner|] eqn:E.
    + rewrite E. reflexivity.
    + rewrite lookup_insert_eq. simpl. apply lookup_empty.
  - rewrite lookup_insert_ne by congruence.
    destruct (connections m !! s); [reflexivity|].
    rewrite lookup_insert_ne by congruence. reflexivity.
Qed.

(** [connect] with overrides that are in range creates a connection that
    is in range; without overrides the defaults are. *)
Lemma connect_preserves_range m (s t : string) init now :
  overridesInRange init ->
  managerInRange m -> managerInRange (connect m s t init now).
Proof.
  intros (Hv & Ht & Hf) Hm s' t' c Hc.
  destruct (decide (s' = s)) as [->|Hs];
    [destruct (decide (t' = t)) as [->|Hne]|].
  - rewrite getConnection_connect in Hc. injection Hc as <-.
    unfold connectionInRange. simpl. split; [|split].
    + destruct (p_value init) as [x|]; simpl;
        [apply Hv; reflexivity|unfold signedUnitInterval; lra].
    + destruct (p_trust init) as [x|]; simpl;
        [apply Ht; reflexivity|unfold unitInterval; lra].
    + destruct (p_familiarity init) as [x|]; simpl;
        [apply Hf; reflexivity|unfold unitInterval; lra].
  - rewrite getConnection_connect_other in Hc by (right; exact Hne).
    apply (Hm _ _ _ Hc).
  - rewrite getConnection_connect_other in Hc by (left; exact Hs).
    apply (Hm _ _ _ Hc).
Qed.

Lemma noOverrides_in_range : overridesInRange noOverrides.
Proof. split; [|split]; intros x Hx; discriminate Hx. Qed.

(** [disconnect] only removes a connection. *)
Lemma getConnection_disconnect m (s t s' t' : string) c :
  getConnection (disconnect m s t) s' t' = Some c ->
  getConnection m s' t' = Some c.
Proof.
  unfold getConnection, disconnect. simpl.
  destruct (connections m !! s) as [inner|] eqn:E; [|trivial].
  destruct (decide (s' = s)) as [->|Hs].
  - rewrite lookup_insert_eq, E. intros H.
    apply lookup_delete_Some in H. apply H.
  - rewrite lookup_insert_ne by congruence. trivial.
Qed.

Lemma disconnect_preserves_range m (s t : string) :
  managerInRange m -> managerInRange (disconnect m s t).
Proof.
  intros Hm s' t' c Hc. apply (Hm s' t' c).
  apply (getConnection_disconnect _ _ _ _ _ _ Hc).
Qed.

Lemma rules_runManagerCall m call : rules (runManagerCall m call) = rules m.
Proof.
  destruct call as [s t init now|s t|i]; unfold runManagerCall.
  - apply rules_connect.
  - apply rules_disconnect.
  - apply rules_recordInteraction.
Qed.

(** From a new manager, every sequence of [connect] calls with overrides in
    range, [disconnect] calls and [recordInteraction] calls with aligned
    impacts keeps every connection in range. *)
Lemma runManagerCalls_preserves_range (calls : list ManagerCall) :
  Forall tameCall calls ->
  managerInRange (runManagerCalls newManager calls)
  /\ rules (runManagerCalls newManager calls) = [positiveRule; negativeRule].
Proof.
  unfold runManagerCalls.
  generalize newManager_in_range rules_newManager.
  generalize newManager. intros m Hm Hr Hcalls. revert m Hm Hr.
  induction Hcalls as [|call calls Hcall _ IH]; intros m Hm Hr; simpl.
  - split; assumption.
  - apply IH; [|rewrite rules_runManagerCall; exact Hr].
    destruct call as [s t init now|s t|i]; simpl in *.
    + apply connect_preserves_range; assumption.
    + apply disconnect_preserves_range; assumption.
    + apply recordInteraction_preserves_range; assumption.
Qed.

End ConnectFacts.

(** ** PersonalityStorage *)

Section StorageFacts.

Import Storage.
Local Open Scope Q_scope.

Implicit Types (st : PersonalityStorage) (p : Personality)
               (t : PersonalityTrait).

Lemma clamp01_range (v : Q) : unitInterval (Qmax 0 (Qmin 1 v)).
Proof. apply (clamp_range 0 1 v). lra. Qed.

Lemma writeMood_range (current : Q) (update : option Q) :
  unitInterval current -> unitInterval (writeMood current update).
Proof.
  intros H. destruct update as [v|]; simpl; [apply clamp01_range|exact H].
Qed.

(** [updateTrait] on an existing trait stores the clamped value. *)
Lemma updateTrait_stores_clamped st agentId traitName v isAdaptive p t :
  personalities st !! agentId = Some p ->
  traitMapOf p isAdaptive !! traitName = Some t ->
  exists p',
    getPersonality (updateTrait st agentId traitName v isAdaptive) agentId
      = Some p'
    /\ traitMapOf p' isAdaptive !! traitName
       = Some (setValue t (Num.clamp 0 1 v))
    /\ unitInterval (Num.clamp 0 1 v).
Proof.
  intros Hp Ht. unfold updateTrait, getPersonality. rewrite Hp, Ht.
  eexists. split; [apply lookup_insert_eq|].
  split; [|apply clamp01_range].
  destruct isAdaptive; apply lookup_insert_eq.
Qed.

(** [updateTrait] is a no-op on an unknown agent or trait. *)
Lemma updateTrait_unknown st agentId traitName v isAdaptive :
  (forall p, personalities st !! agentId = Some p ->
             traitMapOf p isAdaptive !! traitName = None) ->
  updateTrait st agentId traitName v isAdaptive = st.
Proof.
  intros H. unfold updateTrait.
  destruct (personalities st !! agentId) as [p|]; [|reflexivity].
  specialize (H p eq_refl). rewrite H. reflexivity.
Qed.

Lemma updateTrait_preserves_range st agentId traitName v isAdaptive :
  storageInRange st ->
  storageInRange (updateTrait st agentId traitName v isAdaptive).
Proof.
  intros Hst. unfold updateTrait.
  destruct (personalities st !! agentId) as [p|] eqn:Hp; [|exact Hst].
  destruct (Hst _ _ Hp) as (Hb & Ha & Hm & Hr).
  destruct isAdaptive; unfold traitMapOf.
  - destruct (adaptiveTraits p !! traitName) as [t|] eqn:Ht; [|exact Hst].
    apply map_Forall_insert_2; [|exact Hst].
    split; [exact Hb|]. split; [|split; [exact Hm|exact Hr]]. simpl.
    apply map_Forall_insert_2; [apply clamp01_range|exact Ha].
  - destruct (baseTraits p !! traitName) as [t|] eqn:Ht; [|exact Hst].
    apply map_Forall_insert_2; [|exact Hst].
    split; [|split; [exact Ha|split; [exact Hm|exact Hr]]]. simpl.
    apply map_Forall_insert_2; [apply clamp01_range|exact Hb].
Qed.

(** [updateMood] writes every present field clamped and keeps the others. *)
Lemma updateMood_stores_clamped st agentId moodUpdates p :
  personalities st !! agentId = Some p ->
  exists p',
    getPersonality (updateMood st agentId moodUpdates) agentId = Some p'
    /\ mood p' = assignMood (mood p) moodUpdates
    /\ (forall v, p_happiness moodUpdates = Some v ->
                  happiness (mood p') = Num.clamp 0 1 v)
    /\ (forall v, p_energy moodUpdates = Some v ->
                  energy (mood p') = Num.clamp 0 1 v)
    /\ (forall v, p_stress moodUpdates = Some v ->
                  stress (mood p') = Num.clamp 0 1 v)
    /\ (forall v, p_dominance moodUpdates = Some v ->
                  dominance (mood p') = Num.clamp 0 1 v).
Proof.
  intros Hp. unfold updateMood, getPersonality. rewrite Hp. simpl.
  eexists. split; [apply lookup_insert_eq|]. simpl.
  split; [reflexivity|].
  repeat split; intros v Hv; rewrite Hv; reflexivity.
Qed.

Lemma updateMood_preserves_range st agentId moodUpdates :
  storageInRange st -> storageInRange (updateMood st agentId moodUpdates).
Proof.
  intros Hst. unfold updateMood.
  destruct (personalities st !! agentId) as [p|] eqn:Hp; [|exact Hst].
  destruct (Hst _ _ Hp) as (Hb & Ha & (Hh & He & Hs & Hd) & Hr).
  apply map_Forall_insert_2; [|exact Hst].
  split; [exact Hb|]. split; [exact Ha|]. split; [|exact Hr].
  repeat split; simpl; apply writeMood_range; assumption.
Qed.

(** Every sequence of [updateTrait] and [updateMood] calls, with any
    values, keeps every trait and mood value of the store in [0, 1] and
    leaves the relationship strengths as they were. *)
Lemma runStoreCalls_preserves_range st (calls : list StoreCall) :
  storageInRange st -> storageInRange (runStoreCalls st calls).
Proof.
  unfold runStoreCalls. revert st.
  induction calls as [|call calls IH]; intros st Hst; simpl; [exact Hst|].
  apply IH. destruct call; simpl.
  - apply updateTrait_preserves_range, Hst.
  - apply updateMood_preserves_range, Hst.
Qed.

End StorageFacts.

(** ** PersonalityUpdater *)

Section UpdaterFacts.

Import Storage Updater.
Local Open Scope Q_scope.

Implicit Types (u : PersonalityUpdater) (p : Personality) (e : EmotionalEvent).

Lemma Qmin_compat_r (a x y : Q) : x == y -> Qmin a x == Qmin a y.
Proof.
  intros H.
  destruct (Qmin_cases a x) as [[? E1]|[? E1]];
    destruct (Qmin_cases a y) as [[? E2]|[? E2]]; lra.
Qed.

(** The relationship entry written for an event whose source is set and
    is not the personality itself. *)
Lemma calculateRelationshipUpdates_other p e :
  truthy (source e) = true ->
  source e <> id p ->
  calculateRelationshipUpdates p e !! source e =
    Some (Num.clamp (-1) 1
            (match relationships p !! source e with
             | Some r => Num.orZero r
             | None => 0
             end + valence e * intensity e * adaptationRate)).
Proof.
  intros Ht Hne. unfold calculateRelationshipUpdates.
  rewrite Ht. apply String.eqb_neq in Hne. rewrite Hne. simpl.
  apply lookup_insert_eq.
Qed.

(** No relationship entry for an event of the personality itself or
    without a source. *)
Lemma calculateRelationshipUpdates_self p e :
  source e = id p \/ source e = "" ->
  calculateRelationshipUpdates p e = ∅.
Proof.
  intros H. unfold calculateRelationshipUpdates, truthy.
  destruct H as [H|H].
  - apply String.eqb_eq in H. rewrite H.
    destruct (negb (source e =? "")%string); reflexivity.
  - rewrite H. reflexivity.
Qed.

(** Every relationship value returned by [processEvent] is in [-1, 1]. *)
Lemma calculateRelationshipUpdates_range p e :
  map_Forall (fun _ r => signedUnitInterval r)
    (calculateRelationshipUpdates p e).
Proof.
  unfold calculateRelationshipUpdates.
  destruct (truthy (source e) && negb (source e =? id p)%string).
  - apply map_Forall_insert_2; [|apply map_Forall_empty].
    apply (clamp_range (-1) 1). lra.
  - apply map_Forall_empty.
Qed.

(** C5: for a personality whose id is not ["X"], the social interaction of
    valence 0.6 and intensity 1 coming from ["X"] yields the trait delta
    0.03 for sociability and, under the key ["X"], the current relationship
    (0 when absent) plus 0.6 * 1 * 0.05, clamped into [-1, 1]. *)
Theorem C5_social_interaction_from_X u p ctx :
  id p <> "X" ->
  Num.optEq
    (traitUpdates (processEvent u p (socialFromX ctx)).2 !! "sociability")
    (Some 0.03)
  /\ Num.optEq
       (relationshipUpdates (processEvent u p (socialFromX ctx)).2 !! "X")
       (Some (Num.clamp (-1) 1
                (default 0 (relationships p !! "X") + 0.6 * 1 * 0.05))).
Proof.
  intros Hid. split.
  - change (traitUpdates (processEvent u p (socialFromX ctx)).2)
      with (calculateTraitUpdates p (socialFromX ctx)).
    unfold calculateTraitUpdates, socialFromX. simpl.
    rewrite lookup_insert_eq. reflexivity.
  - change (relationshipUpdates (processEvent u p (socialFromX ctx)).2)
      with (calculateRelationshipUpdates p (socialFromX ctx)).
    assert (Hne : source (socialFromX ctx) <> id p) by (simpl; congruence).
    pose proof (calculateRelationshipUpdates_other p (socialFromX ctx)
                  eq_refl Hne) as H.
    change (source (socialFromX ctx)) with "X" in H. rewrite H.
    change (valence (socialFromX ctx)) with 0.6.
    change (intensity (socialFromX ctx)) with 1.
    apply clamp_compat.
    destruct (relationships p !! "X") as [r|]; simpl.
    + rewrite (orZero_eq r). reflexivity.
    + reflexivity.
Qed.

Lemma C5_social_interaction_from_X_witness :
  id acquaintanceOfX <> "X"
  /\ Num.optEq
       (traitUpdates (processEvent newUpdater acquaintanceOfX (socialFromX None)).2
          !! "sociability")
       (Some 0.03)
  /\ Num.optEq
       (relationshipUpdates
          (processEvent newUpdater acquaintanceOfX (socialFromX None)).2 !! "X")
       (Some (Num.clamp (-1) 1
                (default 0 (relationships acquaintanceOfX !! "X") + 0.6 * 1 * 0.05))).
Proof.
  assert (H : id acquaintanceOfX <> "X") by (simpl; congruence).
  split; [exact H|].
  exact (C5_social_interaction_from_X newUpdater acquaintanceOfX None H).
Defined.

(** C6: the mood part of [processEvent]: happiness is valence * intensity;
    energy is intensity * 1 for a positive valence and intensity * -0.5
    otherwise; stress is intensity * 1 for a negative valence and
    intensity * -0.5 otherwise; for the type ["conflict"], and only then,
    stress becomes min(1, stress + 0.2) and dominance is 0.1 for a positive
    valence and -0.1 otherwise; for any other type dominance is absent. *)
Theorem C6_mood_updates u p e :
  let mu := moodUpdates (processEvent u p e).2 in
  let stress0 := intensity e * (if Qlt_le_dec (valence e) 0 then 1 else -0.5) in
  Num.optEq (p_happiness mu) (Some (valence e * intensity e))
  /\ Num.optEq (p_energy mu)
       (Some (intensity e * (if Qlt_le_dec 0 (valence e) then 1 else -0.5)))
  /\ Num.optEq (p_stress mu)
       (Some (if decide (type e = "conflict")
              then Qmin 1 (stress0 + 0.2) else stress0))
  /\ p_dominance mu =
       (if decide (type e = "conflict")
        then Some (if Qlt_le_dec 0 (valence e) then 0.1 else -0.1)
        else None).
Proof.
  simpl. unfold calculateMoodUpdates.
  assert (Hg : Num.gtb (valence e) 0 = if Qlt_le_dec 0 (valence e) then true else false).
  { destruct (Qlt_le_dec 0 (valence e)); [apply gtb_true|apply gtb_false]; assumption. }
  assert (Hl : Num.ltb (valence e) 0 = if Qlt_le_dec (valence e) 0 then true else false).
  { destruct (Qlt_le_dec (valence e) 0); [apply ltb_true|apply ltb_false]; assumption. }
  rewrite Hg, Hl.
  destruct (decide (type e = "conflict")) as [Hc|Hc].
  - apply String.eqb_eq in Hc. rewrite Hc. simpl.
    destruct (Qlt_le_dec 0 (valence e)), (Qlt_le_dec (valence e) 0);
      repeat split; try reflexivity;
      apply Qmin_compat_r; rewrite orZero_eq; reflexivity.
  - apply String.eqb_neq in Hc. rewrite Hc. simpl.
    destruct (Qlt_le_dec 0 (valence e)), (Qlt_le_dec (valence e) 0);
      repeat split; reflexivity.
Qed.

(** The trait part of [decayPersonality], entry by entry. *)
Lemma decay_traitUpdates_lookup p (traitName : string) :
  traitUpdates (decayPersonality p) !! traitName =
    match adaptiveTraits p !! traitName, baseTraits p !! traitName with
    | Some trait, Some baseTrait =>
        Some ((value baseTrait - value trait) * 0.1)
    | _, _ => None
    end.
Proof.
  unfold decayPersonality. simpl. rewrite map_lookup_imap.
  destruct (adaptiveTraits p !! traitName) as [trait|]; simpl; [|reflexivity].
  destruct (baseTraits p !! traitName); reflexivity.
Qed.

(** C2 as stated fails: an adaptive trait without a base trait of the same
    name gets no entry in [traitUpdates]. *)
Lemma C2_counterexample :
  is_Some (adaptiveTraits driftOnly !! "boldness")
  /\ traitUpdates (decayPersonality driftOnly) !! "boldness" = None.
Proof.
  split; [eexists; reflexivity|].
  rewrite decay_traitUpdates_lookup. reflexivity.
Qed.

(** C2, amended: [traitUpdates] holds (base - adaptive) * 0.1 for exactly
    the adaptive traits that have a base trait of the same name, and no
    entry for any other name; [moodUpdates] holds (0.5 - current) * 0.1 for
    each of the four mood fields; [relationshipUpdates] is empty. *)
Theorem C2_decayPersonality p :
  (forall traitName : string,
     traitUpdates (decayPersonality p) !! traitName =
       match adaptiveTraits p !! traitName, baseTraits p !! traitName with
       | Some trait, Some baseTrait =>
           Some ((value baseTrait - value trait) * 0.1)
       | _, _ => None
       end)
  /\ moodUpdates (decayPersonality p) =
       {| p_happiness := Some ((0.5 - happiness (mood p)) * 0.1);
          p_energy := Some ((0.5 - energy (mood p)) * 0.1);
          p_stress := Some ((0.5 - stress (mood p)) * 0.1);
          p_dominance := Some ((0.5 - dominance (mood p)) * 0.1) |}
  /\ relationshipUpdates (decayPersonality p) = ∅.
Proof.
  split; [apply decay_traitUpdates_lookup|]. split; reflexivity.
Qed.

(** *** Decay ticks *)


(** Between two values of [0, 1] the step stays in [0, 1]: writing it
    through [updateTrait] or [updateMood] stores it as it is. *)
Lemma decay_step_clamp_free (x target : Q) :
  unitInterval x -> unitInterval target ->
  Num.clamp 0 1 (x + (target - x) * 0.1) == x + (target - x) * 0.1.
Proof.
  unfold unitInterval. intros Hx Ht. apply clamp_id. lra.
Qed.

Lemma decayTick_baseTraits p : baseTraits (decayTick p) = baseTraits p.
Proof. reflexivity. Qed.

Lemma decayTick_adaptive p (traitName : string) trait baseTrait :
  adaptiveTraits p !! traitName = Some trait ->
  baseTraits p !! traitName = Some baseTrait ->
  adaptiveTraits (decayTick p) !! traitName =
    Some (setValue trait
            (value trait + (value baseTrait - value trait) * 0.1)).
Proof.
  intros Ha Hb. unfold decayTick, applyOffsets. cbn -[decayPersonality].
  rewrite map_lookup_imap, Ha. cbn -[decayPersonality].
  rewrite decay_traitUpdates_lookup, Ha, Hb. reflexivity.
Qed.

Lemma decayTick_mood p :
  mood (decayTick p) =
    {| happiness := happiness (mood p) + (0.5 - happiness (mood p)) * 0.1;
       energy := energy (mood p) + (0.5 - energy (mood p)) * 0.1;
       stress := stress (mood p) + (0.5 - stress (mood p)) * 0.1;
       dominance := dominance (mood p) + (0.5 - dominance (mood p)) * 0.1 |}.
Proof. reflexivity. Qed.

Lemma setValue_same trait : setValue trait (value trait) = trait.
Proof. destruct trait; reflexivity. Qed.

Lemma decayTick_adaptive_unpaired p (traitName : string) trait :
  adaptiveTraits p !! traitName = Some trait ->
  baseTraits p !! traitName = None ->
  adaptiveTraits (decayTick p) !! traitName = Some trait.
Proof.
  intros Ha Hb. unfold decayTick, applyOffsets. cbn -[decayPersonality].
  rewrite map_lookup_imap, Ha. cbn -[decayPersonality].
  rewrite decay_traitUpdates_lookup, Ha, Hb. cbn [offset].
  rewrite setValue_same. reflexivity.
Qed.







(** *** Emotional memory *)

Lemma processEvent_memory u p e :
  getEmotionalMemory (processEvent u p e).1 (id p) None =
    getEmotionalMemory u (id p) None ++ [e].
Proof.
  unfold getEmotionalMemory, processEvent. simpl.
  destruct (emotionalMemory u !! id p) as [log|] eqn:E.
  - rewrite E. rewrite lookup_insert_eq. reflexivity.
  - rewrite lookup_insert_eq. rewrite lookup_insert_eq. reflexivity.
Qed.

(** Without a limit the whole log comes back. *)
Lemma getEmotionalMemory_no_limit u (personalityId : string) :
  getEmotionalMemory u personalityId None =
    default [] (emotionalMemory u !! personalityId).
Proof. reflexivity. Qed.

(** A positive limit selects the tail of that length, the whole log when
    the log is shorter. *)
Lemma getEmotionalMemory_positive_limit u (personalityId : string) (limit : Z) :
  (0 < limit)%Z ->
  let memory := getEmotionalMemory u personalityId None in
  getEmotionalMemory u personalityId (Some limit) =
    drop (length memory - Z.to_nat limit) memory.
Proof.
  intros Hpos. unfold getEmotionalMemory. simpl.
  destruct (Z.eqb_spec limit 0) as [->|_]; [lia|].
  unfold slice. destruct (Z.ltb_spec (- limit) 0); [|lia].
  f_equal. lia.
Qed.

Example getEmotionalMemory_abc_full :
  getEmotionalMemory afterThreeEvents "agent1" None = [eventA; eventB; eventC].
Proof. vm_compute. reflexivity. Qed.

Example getEmotionalMemory_abc_limit_2 :
  getEmotionalMemory afterThreeEvents "agent1" (Some 2%Z) = [eventB; eventC].
Proof. vm_compute. reflexivity. Qed.

(** C7, evaluated: with the limit 0 the whole log comes back, not its
    last 0 entries. *)
Theorem C7_limit_zero_returns_full_log :
  getEmotionalMemory afterThreeEvents "agent1" (Some 0%Z)
    = [eventA; eventB; eventC]
  /\ getEmotionalMemory afterThreeEvents "agent1" (Some 0%Z) <> [].
Proof.
  split; [vm_compute; reflexivity|].
  intros H. vm_compute in H. discriminate H.
Qed.

End UpdaterFacts.

(** ** Decay ticks and rounding *)

Section Binary64Facts.

Import PrimFloat Binary64.
Local Open Scope float_scope.
Local Set Warnings "-inexact-float".


End Binary64Facts.

(** The amended C3 does not rest on exact arithmetic.  Let every operation
    of a tick round its result, by a rounding that is monotone and never
    more than doubles a number, as rounding to the nearest binary64 number
    does where it does not overflow.  Then a value and a target that the
    rounding leaves as they are, numbers of the format, give a step that
    ends between them. *)

Section Rounding.

Local Open Scope Q_scope.

Variable rnd : Q -> Q.
Hypothesis rnd_monotone : forall x y, x <= y -> rnd x <= rnd y.
Hypothesis rnd_above : forall y, 0 <= y -> rnd y <= 2 * y.
Hypothesis rnd_below : forall y, y <= 0 -> 2 * y <= rnd y.

Lemma rnd_zero : rnd 0 == 0.
Proof.
  pose proof (rnd_above 0). pose proof (rnd_below 0). lra.
Qed.

Lemma rnd_rate : 0 <= rnd 0.1 <= 0.2.
Proof.
  pose proof rnd_zero. pose proof (rnd_monotone 0 0.1).
  pose proof (rnd_above 0.1). lra.
Qed.

Lemma roundedStep_up (target current : Q) :
  rnd target == target -> rnd current == current ->
  current <= target ->
  current <= roundedStep rnd target current
  /\ roundedStep rnd target current <= target.
Proof.
  intros Ht Hc Hle. unfold roundedStep.
  pose proof rnd_zero as H0. pose proof rnd_rate as [Hr0 Hr1].
  set (r := rnd 0.1) in *.
  assert (Hd : 0 <= rnd (target - current) <= 2 * (target - current)).
  { pose proof (rnd_monotone 0 (target - current)).
    pose proof (rnd_above (target - current)). lra. }
  set (d := rnd (target - current)) in *.
  assert (Hp : 0 <= d * r <= 0.4 * (target - current)) by nra.
  assert (Hs : 0 <= rnd (d * r) <= 0.8 * (target - current)).
  { pose proof (rnd_monotone 0 (d * r)). pose proof (rnd_above (d * r)). lra. }
  set (s := rnd (d * r)) in *.
  pose proof (rnd_monotone current (current + s)).
  pose proof (rnd_monotone (current + s) target). lra.
Qed.

Lemma roundedStep_down (target current : Q) :
  rnd target == target -> rnd current == current ->
  target <= current ->
  target <= roundedStep rnd target current
  /\ roundedStep rnd target current <= current.
Proof.
  intros Ht Hc Hle. unfold roundedStep.
  pose proof rnd_zero as H0. pose proof rnd_rate as [Hr0 Hr1].
  set (r := rnd 0.1) in *.
  assert (Hd : 2 * (target - current) <= rnd (target - current) <= 0).
  { pose proof (rnd_monotone (target - current) 0).
    pose proof (rnd_below (target - current)). lra. }
  set (d := rnd (target - current)) in *.
  assert (Hp : 0.4 * (target - current) <= d * r <= 0) by nra.
  assert (Hs : 0.8 * (target - current) <= rnd (d * r) <= 0).
  { pose proof (rnd_monotone (d * r) 0). pose proof (rnd_below (d * r)). lra. }
  set (s := rnd (d * r)) in *.
  pose proof (rnd_monotone (current + s) current).
  pose proof (rnd_monotone target (current + s)). lra.
Qed.

Lemma roundedStep_settles (target current : Q) :
  rnd target == target -> rnd current == current ->
  settles current (roundedStep rnd target current) target.
Proof.
  intros Ht Hc. unfold settles.
  pose proof (roundedStep_up target current Ht Hc) as Hup.
  pose proof (roundedStep_down target current Ht Hc) as Hdown.
  split; [|split; intros Hle].
  - destruct (Qlt_le_dec current target) as [Hlt|Hge].
    + pose proof (Qabs_neg (current - target)).
      pose proof (Qabs_neg (roundedStep rnd target current - target)). lra.
    + pose proof (Qabs_pos (current - target)).
      pose proof (Qabs_pos (roundedStep rnd target current - target)). lra.
  - exact (Hup Hle).
  - exact (Hdown Hle).
Qed.

End Rounding.

(** Exact arithmetic is the rounding that changes nothing. *)
Lemma roundedStep_exact (target current : Q) :
  roundedStep (fun x => x) target current
    = (current + (target - current) * 0.1)%Q.
Proof. reflexivity. Qed.

(** * Further properties of the code *)

(** ** ConnectionManager: rules, pairs and history *)

Section ConnectMore.

Import Connect.
Local Open Scope Q_scope.

Implicit Types (m : ConnectionManager) (i : AgentInteraction)
               (c : ConnectionStrength) (r : ConnectionRule).

Lemma string_app_assoc (s t u : string) :
  ((s +:+ t) +:+ u = s +:+ (t +:+ u))%string.
Proof.
  induction s as [|a s IH]; [reflexivity|].
  change (String a ((s +:+ t) +:+ u) = String a (s +:+ (t +:+ u)))%string.
  f_equal. exact IH.
Qed.

Lemma getConnection_disconnect_eq m (s t : string) :
  getConnection (disconnect m s t) s t = None.
Proof.
  unfold getConnection, disconnect. simpl.
  destruct (connections m !! s) as [inner|] eqn:E.
  - rewrite lookup_insert_eq. apply lookup_delete_eq.
  - rewrite E. reflexivity.
Qed.

Lemma getConnection_disconnect_other m (s t s' t' : string) :
  s' <> s \/ t' <> t ->
  getConnection (disconnect m s t) s' t' = getConnection m s' t'.
Proof.
  intros Hne. unfold getConnection, disconnect. simpl.
  destruct (connections m !! s) as [inner|] eqn:E; [|reflexivity].
  destruct (decide (s' = s)) as [->|Hs].
  - rewrite lookup_insert_eq, E.
    destruct Hne as [Hne|Hne]; [congruence|].
    apply lookup_delete_ne. congruence.
  - rewrite lookup_insert_ne by congruence. reflexivity.
Qed.

Lemma emitted_recordInteraction m i c :
  getConnection m (sourceId i) (targetId i) = Some c ->
  emitted (recordInteraction m i) =
    emitted m ++
    [ConnectionUpdated (sourceId i) (targetId i)
       (setLastInteraction (applyRules (rules m) i c) (timestamp i)) i].
Proof.
  intros Hc. unfold recordInteraction. rewrite Hc. reflexivity.
Qed.

Lemma history_recordInteraction_other m i (key : string) :
  key <> historyKey i ->
  interactionHistory (recordInteraction m i) !! key
    = interactionHistory m !! key.
Proof.
  intros Hne. unfold recordInteraction.
  assert (Hh : forall h : gmap string (list AgentInteraction),
    <[historyKey i :=
        default [] (match h !! historyKey i with
                    | Some _ => h
                    | None => <[historyKey i := []]> h
                    end !! historyKey i) ++ [i]]>
      (match h !! historyKey i with
       | Some _ => h
       | None => <[historyKey i := []]> h
       end) !! key
    = h !! key).
  { intros h. rewrite lookup_insert_ne by congruence.
    destruct (h !! historyKey i); [reflexivity|].
    apply lookup_insert_ne. congruence. }
  destruct (getConnection m (sourceId i) (targetId i)); simpl; apply Hh.
Qed.

(** X1: under the two default rules, a negative interaction against an
    existing connection sets trust to max(0, trust + impact.trust) and value
    to max(-1, value + connectionStrength), leaves familiarity as it was
    and stamps the interaction's time; value does not rise when it was at
    least -1, and trust does not rise when its impact is not positive and
    it was at least 0. *)
Theorem X1_negative_interaction m i c :
  rules m = [positiveRule; negativeRule] ->
  getConnection m (sourceId i) (targetId i) = Some c ->
  connectionStrength (impact i) < 0 ->
  exists c',
    getConnection (recordInteraction m i) (sourceId i) (targetId i) = Some c'
    /\ trust c' = Qmax 0 (trust c + impact_trust (impact i))
    /\ value c' = Qmax (-1) (value c + connectionStrength (impact i))
    /\ familiarity c' = familiarity c
    /\ lastInteraction c' = timestamp i
    /\ 0 <= trust c' /\ -1 <= value c'
    /\ (-1 <= value c -> value c' <= value c)
    /\ (impact_trust (impact i) <= 0 -> 0 <= trust c -> trust c' <= trust c).
Proof.
  intros Hrules Hc Hneg.
  eexists. split; [apply getConnection_recordInteraction, Hc|].
  rewrite Hrules, applyRules_default_negative by exact Hneg. simpl.
  do 4 (split; [reflexivity|]).
  repeat split; intros; minmax.
Qed.

Lemma X1_negative_interaction_witness :
  rules defaultPair = [positiveRule; negativeRule]
  /\ getConnection defaultPair "a" "b" = Some (mkConnectionStrength 0 0.1 0 0)
  /\ -0.3 < 0
  /\ exists c',
       getConnection
         (recordInteraction defaultPair
            (mkAgentInteraction "quarrel" "a" "b" 7 "" (mkImpact (-0.4) 0.9 (-0.3))))
         "a" "b" = Some c'
       /\ trust c' = Qmax 0 (0.1 + -0.4)
       /\ value c' = Qmax (-1) (0 + -0.3)
       /\ familiarity c' = 0
       /\ lastInteraction c' = 7%Z
       /\ 0 <= trust c' /\ -1 <= value c'
       /\ (-1 <= 0 -> value c' <= 0)
       /\ (-0.4 <= 0 -> 0 <= 0.1 -> trust c' <= 0.1).
Proof.
  assert (Hr : rules defaultPair = [positiveRule; negativeRule]) by reflexivity.
  assert (Hc : getConnection defaultPair "a" "b"
               = Some (mkConnectionStrength 0 0.1 0 0)) by reflexivity.
  assert (Hn : -0.3 < 0) by reflexivity.
  split; [exact Hr|]. split; [exact Hc|]. split; [exact Hn|].
  exact (X1_negative_interaction defaultPair
           (mkAgentInteraction "quarrel" "a" "b" 7 "" (mkImpact (-0.4) 0.9 (-0.3)))
           (mkConnectionStrength 0 0.1 0 0) Hr Hc Hn).
Defined.

(** X2: under the two default rules, an interaction whose connection
    strength is 0 matches no rule: whatever its trust and familiarity
    impacts, the connection keeps its value, trust and familiarity; only
    the time of the last interaction is stamped, and the update is still
    notified. *)
Theorem X2_neutral_interaction m i c :
  rules m = [positiveRule; negativeRule] ->
  getConnection m (sourceId i) (targetId i) = Some c ->
  connectionStrength (impact i) == 0 ->
  getConnection (recordInteraction m i) (sourceId i) (targetId i)
    = Some (mkConnectionStrength (value c) (trust c) (familiarity c) (timestamp i))
  /\ emitted (recordInteraction m i) =
       emitted m ++
       [ConnectionUpdated (sourceId i) (targetId i)
          (mkConnectionStrength (value c) (trust c) (familiarity c) (timestamp i))
          i].
Proof.
  intros Hrules Hc Hz. split.
  - rewrite (getConnection_recordInteraction _ _ _ Hc), Hrules.
    rewrite applyRules_default_zero by exact Hz. reflexivity.
  - rewrite (emitted_recordInteraction _ _ _ Hc), Hrules.
    rewrite applyRules_default_zero by exact Hz. reflexivity.
Qed.

Lemma X2_neutral_interaction_witness :
  rules defaultPair = [positiveRule; negativeRule]
  /\ getConnection defaultPair "a" "b" = Some (mkConnectionStrength 0 0.1 0 0)
  /\ 0 == 0
  /\ getConnection
       (recordInteraction defaultPair
          (mkAgentInteraction "glance" "a" "b" 9 "" (mkImpact 0.5 0.5 0)))
       "a" "b"
     = Some (mkConnectionStrength 0 0.1 0 9)
  /\ emitted
       (recordInteraction defaultPair
          (mkAgentInteraction "glance" "a" "b" 9 "" (mkImpact 0.5 0.5 0)))
     = emitted defaultPair ++
       [ConnectionUpdated "a" "b" (mkConnectionStrength 0 0.1 0 9)
          (mkAgentInteraction "glance" "a" "b" 9 "" (mkImpact 0.5 0.5 0))].
Proof.
  assert (Hr : rules defaultPair = [positiveRule; negativeRule]) by reflexivity.
  assert (Hc : getConnection defaultPair "a" "b"
               = Some (mkConnectionStrength 0 0.1 0 0)) by reflexivity.
  assert (Hz : 0 == 0) by reflexivity.
  split; [exact Hr|]. split; [exact Hc|]. split; [exact Hz|].
  exact (X2_neutral_interaction defaultPair
           (mkAgentInteraction "glance" "a" "b" 9 "" (mkImpact 0.5 0.5 0))
           (mkConnectionStrength 0 0.1 0 0) Hr Hc Hz).
Defined.

(** X3: [connect] followed by [getConnection] on the same pair answers the
    new record, with 0, 0.1 and 0 for the value, trust and familiarity that
    the overrides leave out and the given time, whatever the pair held
    before: connecting again resets the connection.  The [Connected]
    notification carries the same record.  The interaction histories are
    not tied to the connections: [connect] and [disconnect] leave them all
    as they were. *)
Theorem X3_connect_then_getConnection m (s t : string) init now :
  getConnection (connect m s t init now) s t =
    Some {| value := default 0 (p_value init);
            trust := default 0.1 (p_trust init);
            familiarity := default 0 (p_familiarity init);
            lastInteraction := now |}
  /\ emitted (connect m s t init now) =
       emitted m ++
       [Connected s t {| value := default 0 (p_value init);
                         trust := default 0.1 (p_trust init);
                         familiarity := default 0 (p_familiarity init);
                         lastInteraction := now |}]
  /\ interactionHistory (connect m s t init now) = interactionHistory m
  /\ interactionHistory (disconnect m s t) = interactionHistory m.
Proof.
  split; [apply getConnection_connect|]. repeat split; reflexivity.
Qed.

(** X4: after [disconnect] the pair has no connection, and every other
    pair, the reverse direction included, answers what it answered before. *)
Theorem X4_disconnect_removes_only_the_pair m (s t : string) :
  getConnection (disconnect m s t) s t = None
  /\ (forall s' t' : string,
        s' <> s \/ t' <> t ->
        getConnection (disconnect m s t) s' t' = getConnection m s' t').
Proof.
  split; [apply getConnection_disconnect_eq|].
  intros s' t' Hne. apply getConnection_disconnect_other, Hne.
Qed.

Lemma X4_disconnect_removes_only_the_pair_witness :
  getConnection (disconnect defaultPair "a" "b") "a" "b" = None
  /\ ("b" <> "a" \/ "a" <> "b")
  /\ getConnection (disconnect (connect defaultPair "b" "a" noOverrides 1) "a" "b")
       "b" "a"
     = getConnection (connect defaultPair "b" "a" noOverrides 1) "b" "a".
Proof.
  assert (Hne : "b" <> "a" \/ "a" <> "b") by (left; discriminate).
  split; [exact (proj1 (X4_disconnect_removes_only_the_pair defaultPair "a" "b"))|].
  split; [exact Hne|].
  exact (proj2 (X4_disconnect_removes_only_the_pair
                  (connect defaultPair "b" "a" noOverrides 1) "a" "b")
           "b" "a" Hne).
Defined.

(** X5: connections are directed and independent: [connect] on a pair
    changes no other pair; in particular connecting s to t, for s other
    than t, leaves the connection from t to s as it was. *)
Theorem X5_connect_is_directed m (s t : string) init now :
  (forall s' t' : string,
     s' <> s \/ t' <> t ->
     getConnection (connect m s t init now) s' t' = getConnection m s' t')
  /\ (s <> t ->
      getConnection (connect m s t init now) t s = getConnection m t s).
Proof.
  split.
  - intros s' t' Hne. apply getConnection_connect_other, Hne.
  - intros Hst. apply getConnection_connect_other. left. congruence.
Qed.

Lemma X5_connect_is_directed_witness :
  "a" <> "b"
  /\ getConnection (connect newManager "a" "b" noOverrides 0) "b" "a"
     = getConnection newManager "b" "a"
  /\ getConnection (connect newManager "a" "b" noOverrides 0) "b" "a" = None.
Proof.
  assert (Hne : "a" <> "b") by discriminate.
  split; [exact Hne|]. split; [|reflexivity].
  exact (proj2 (X5_connect_is_directed newManager "a" "b" noOverrides 0) Hne).
Defined.

(** X6: [recordInteraction] touches the connection of its own pair only:
    every other pair, and the list of rules, are as before, whatever the
    rules are. *)
Theorem X6_recordInteraction_touches_one_pair m i :
  rules (recordInteraction m i) = rules m
  /\ (forall s t : string,
        s <> sourceId i \/ t <> targetId i ->
        getConnection (recordInteraction m i) s t = getConnection m s t).
Proof.
  split; [apply rules_recordInteraction|].
  intros s t Hne. apply getConnection_recordInteraction_other, Hne.
Qed.

Lemma X6_recordInteraction_touches_one_pair_witness :
  ("b" <> sourceId friendlyInteraction \/ "a" <> targetId friendlyInteraction)
  /\ getConnection
       (recordInteraction (connect defaultPair "b" "a" noOverrides 1)
          friendlyInteraction) "b" "a"
     = getConnection (connect defaultPair "b" "a" noOverrides 1) "b" "a".
Proof.
  assert (Hne : "b" <> sourceId friendlyInteraction
                \/ "a" <> targetId friendlyInteraction) by (left; discriminate).
  split; [exact Hne|].
  exact (proj2 (X6_recordInteraction_touches_one_pair
                  (connect defaultPair "b" "a" noOverrides 1) friendlyInteraction)
           "b" "a" Hne).
Defined.

(** X7: [recordInteraction] always appends the interaction at the end of
    the history kept under its key, with or without a connection, and
    leaves the history under every other key as it was: a history only
    grows. *)
Theorem X7_history_only_grows m i :
  interactionHistory (recordInteraction m i) !! historyKey i
    = Some (default [] (interactionHistory m !! historyKey i) ++ [i])
  /\ (forall key : string,
        key <> historyKey i ->
        interactionHistory (recordInteraction m i) !! key
          = interactionHistory m !! key).
Proof.
  split; [apply history_recordInteraction|].
  intros key Hne. apply history_recordInteraction_other, Hne.
Qed.

Lemma X7_history_only_grows_witness :
  interactionHistory (recordInteraction defaultPair friendlyInteraction)
    !! historyKey friendlyInteraction
  = Some (default [] (interactionHistory defaultPair
                        !! historyKey friendlyInteraction)
          ++ [friendlyInteraction])
  /\ "b-a" <> historyKey friendlyInteraction
  /\ interactionHistory (recordInteraction defaultPair friendlyInteraction)
       !! "b-a"
     = interactionHistory defaultPair !! "b-a".
Proof.
  assert (Hne : "b-a" <> historyKey friendlyInteraction) by discriminate.
  split; [exact (proj1 (X7_history_only_grows defaultPair friendlyInteraction))|].
  split; [exact Hne|].
  exact (proj2 (X7_history_only_grows defaultPair friendlyInteraction) "b-a" Hne).
Defined.

(** X8: the history key does not separate the two ids: the pair from
    s-t to u and the pair from s to t-u have the same key, so an
    interaction recorded for the first is the last entry of the history
    of the second. *)
Theorem X8_history_key_collision m (s t u tp ct tp' ct' : string) ts ts' k k' :
  let i := mkAgentInteraction tp (s +:+ "-" +:+ t) u ts ct k in
  let j := mkAgentInteraction tp' s (t +:+ "-" +:+ u) ts' ct' k' in
  historyKey i = historyKey j
  /\ exists older,
       interactionHistory (recordInteraction m i) !! historyKey j
         = Some (older ++ [i]).
Proof.
  intros i j.
  assert (Hk : historyKey i = historyKey j).
  { unfold historyKey, i, j. simpl. rewrite !string_app_assoc. reflexivity. }
  split; [exact Hk|].
  rewrite <- Hk. eexists. apply history_recordInteraction.
Qed.

(** X9: a rule added with [addRule] runs after the rules already there and
    on the connection as they left it: when its condition holds its result
    is assigned over theirs, otherwise theirs stands. *)
Theorem X9_addRule_applies_last m r i c :
  getConnection m (sourceId i) (targetId i) = Some c ->
  rules (addRule m r) = rules m ++ [r]
  /\ getConnection (recordInteraction (addRule m r) i) (sourceId i) (targetId i)
     = Some (setLastInteraction
               (let c' := applyRules (rules m) i c in
                if condition r i then assign c' (rule_impact r i c') else c')
               (timestamp i)).
Proof.
  intros Hc. split; [reflexivity|].
  assert (Hc' : getConnection (addRule m r) (sourceId i) (targetId i) = Some c)
    by exact Hc.
  rewrite (getConnection_recordInteraction _ _ _ Hc').
  do 2 f_equal. unfold applyRules. simpl.
  rewrite List.filter_app, fold_left_app. simpl.
  destruct (condition r i); reflexivity.
Qed.

Lemma X9_addRule_applies_last_witness :
  getConnection defaultPair "a" "b" = Some (mkConnectionStrength 0 0.1 0 0)
  /\ rules (addRule defaultPair halveTrustOnBetrayal)
     = rules defaultPair ++ [halveTrustOnBetrayal]
  /\ getConnection
       (recordInteraction (addRule defaultPair halveTrustOnBetrayal)
          (mkAgentInteraction "betrayal" "a" "b" 3 "" (mkImpact 0.3 0 0.2)))
       "a" "b"
     = Some (setLastInteraction
               (let i := mkAgentInteraction "betrayal" "a" "b" 3 ""
                           (mkImpact 0.3 0 0.2) in
                let c' := applyRules (rules defaultPair) i
                            (mkConnectionStrength 0 0.1 0 0) in
                if condition halveTrustOnBetrayal i
                then assign c' (rule_impact halveTrustOnBetrayal i c') else c')
               3).
Proof.
  assert (Hc : getConnection defaultPair "a" "b"
               = Some (mkConnectionStrength 0 0.1 0 0)) by reflexivity.
  split; [exact Hc|].
  exact (X9_addRule_applies_last defaultPair halveTrustOnBetrayal
           (mkAgentInteraction "betrayal" "a" "b" 3 "" (mkImpact 0.3 0 0.2))
           (mkConnectionStrength 0 0.1 0 0) Hc).
Defined.

(** X10: starting from a new manager, every sequence of [connect] calls
    whose overrides are within the ranges of the fields, [disconnect] calls
    and [recordInteraction] calls whose trust and familiarity impacts point
    the way of the connection strength keeps every connection's value in
    [-1, 1] and its trust and familiarity in [0, 1]. *)
Theorem X10_tame_calls_keep_connections_in_range (calls : list ManagerCall) :
  Forall tameCall calls ->
  forall (s t : string) c,
    getConnection (runManagerCalls newManager calls) s t = Some c ->
    (-1 <= value c <= 1) /\ (0 <= trust c <= 1) /\ (0 <= familiarity c <= 1).
Proof.
  intros Hcalls s t c Hc.
  exact (proj1 (runManagerCalls_preserves_range calls Hcalls) s t c Hc).
Qed.

Lemma X10_tame_calls_keep_connections_in_range_witness :
  Forall tameCall
    [CallConnect "a" "b" noOverrides 0;
     CallRecordInteraction friendlyInteraction;
     CallDisconnect "b" "a"]
  /\ exists c,
       getConnection
         (runManagerCalls newManager
            [CallConnect "a" "b" noOverrides 0;
             CallRecordInteraction friendlyInteraction;
             CallDisconnect "b" "a"]) "a" "b" = Some c
       /\ (-1 <= value c <= 1) /\ (0 <= trust c <= 1)
       /\ (0 <= familiarity c <= 1).
Proof.
  assert (Hcalls : Forall tameCall
    [CallConnect "a" "b" noOverrides 0;
     CallRecordInteraction friendlyInteraction;
     CallDisconnect "b" "a"]).
  { constructor; [apply noOverrides_in_range|].
    constructor; [|constructor; [exact I|constructor]].
    unfold tameCall, alignedImpact, friendlyInteraction. simpl.
    split; intros H; [split; lra|lra]. }
  split; [exact Hcalls|].
  eexists. split; [vm_compute; reflexivity|].
  refine (X10_tame_calls_keep_connections_in_range _ Hcalls "a" "b" _ _).
  vm_compute. reflexivity.
Defined.

End ConnectMore.

(** ** PersonalityUpdater: memory, relationships and decay *)

Section UpdaterMore.

Import Storage Updater.
Local Open Scope Q_scope.

Implicit Types (u : PersonalityUpdater) (p : Personality) (e : EmotionalEvent).

Lemma slice_nil {A} (start : Z) : slice (@nil A) start = [].
Proof. unfold slice. apply drop_nil. Qed.

Lemma getEmotionalMemory_nil u (personalityId : string) limit :
  emotionalMemory u !! personalityId = None ->
  getEmotionalMemory u personalityId limit = [].
Proof.
  intros H. unfold getEmotionalMemory. rewrite H. simpl.
  destruct limit as [l|]; [|reflexivity].
  destruct (l =? 0)%Z; [reflexivity|apply slice_nil].
Qed.

Lemma getEmotionalMemory_same_log u u' (a b : string) limit :
  emotionalMemory u !! a = emotionalMemory u' !! b ->
  getEmotionalMemory u a limit = getEmotionalMemory u' b limit.
Proof. intros H. unfold getEmotionalMemory. rewrite H. reflexivity. Qed.

Lemma processEvent_memory_other u p e (personalityId : string) :
  personalityId <> id p ->
  emotionalMemory (processEvent u p e).1 !! personalityId
    = emotionalMemory u !! personalityId.
Proof.
  intros Hne. unfold processEvent. simpl.
  destruct (emotionalMemory u !! id p) as [log|] eqn:E.
  - rewrite E. apply lookup_insert_ne. congruence.
  - rewrite lookup_insert_eq.
    rewrite lookup_insert_ne by congruence.
    apply lookup_insert_ne. congruence.
Qed.

(** X11: [clearEmotionalMemory] empties the log of that agent, for every
    limit asked afterwards, and leaves the log of every other agent as it
    was. *)
Theorem X11_clearEmotionalMemory u (personalityId : string) :
  (forall limit,
     getEmotionalMemory (clearEmotionalMemory u personalityId) personalityId limit
       = [])
  /\ (forall (other : string) limit,
        other <> personalityId ->
        getEmotionalMemory (clearEmotionalMemory u personalityId) other limit
          = getEmotionalMemory u other limit).
Proof.
  split.
  - intros limit. apply getEmotionalMemory_nil. apply lookup_delete_eq.
  - intros other limit Hne. apply getEmotionalMemory_same_log.
    apply lookup_delete_ne. congruence.
Qed.

Lemma X11_clearEmotionalMemory_witness :
  getEmotionalMemory (clearEmotionalMemory afterThreeEvents "agent1") "agent1"
    (Some 2%Z) = []
  /\ "agent1" <> "agent2"
  /\ getEmotionalMemory (clearEmotionalMemory afterThreeEvents "agent2")
       "agent1" (Some 2%Z)
     = getEmotionalMemory afterThreeEvents "agent1" (Some 2%Z).
Proof.
  assert (Hne : "agent1" <> "agent2") by discriminate.
  split; [exact (proj1 (X11_clearEmotionalMemory afterThreeEvents "agent1")
                   (Some 2%Z))|].
  split; [exact Hne|].
  exact (proj2 (X11_clearEmotionalMemory afterThreeEvents "agent2")
           "agent1" (Some 2%Z) Hne).
Defined.

(** X12: after [processEvent] has been called for a list of events, the
    log of that personality is its former log followed by the events in
    the order of the calls, nothing dropped, and the log of every other
    agent is unchanged. *)
Theorem X12_memory_keeps_every_event u p (events : list EmotionalEvent) :
  getEmotionalMemory (processEvents u p events) (id p) None
    = getEmotionalMemory u (id p) None ++ events
  /\ (forall other : string,
        other <> id p ->
        getEmotionalMemory (processEvents u p events) other None
          = getEmotionalMemory u other None).
Proof.
  unfold processEvents. revert u.
  induction events as [|e events IH]; intros u; cbn [fold_left].
  - split; [symmetry; apply app_nil_r|reflexivity].
  - destruct (IH (processEvent u p e).1) as [IH1 IH2]. split.
    + rewrite IH1, processEvent_memory, <- app_assoc. reflexivity.
    + intros other Hne. rewrite (IH2 other Hne).
      apply getEmotionalMemory_same_log.
      apply processEvent_memory_other, Hne.
Qed.

Lemma X12_memory_keeps_every_event_witness :
  getEmotionalMemory (processEvents afterThreeEvents acquaintanceOfX [eventB; eventA])
    (id acquaintanceOfX) None
  = getEmotionalMemory afterThreeEvents (id acquaintanceOfX) None
    ++ [eventB; eventA]
  /\ "agent2" <> id acquaintanceOfX
  /\ getEmotionalMemory (processEvents afterThreeEvents acquaintanceOfX [eventB; eventA])
       "agent2" None
     = getEmotionalMemory afterThreeEvents "agent2" None.
Proof.
  assert (Hne : "agent2" <> id acquaintanceOfX) by discriminate.
  split; [exact (proj1 (X12_memory_keeps_every_event afterThreeEvents
                          acquaintanceOfX [eventB; eventA]))|].
  split; [exact Hne|].
  exact (proj2 (X12_memory_keeps_every_event afterThreeEvents
                  acquaintanceOfX [eventB; eventA]) "agent2" Hne).
Defined.

(** X13: with a positive limit [getEmotionalMemory] answers the end of the
    log: a suffix of the full log, of length the smaller of the limit and
    the length of the log. *)
Theorem X13_positive_limit_is_a_tail u (personalityId : string) (limit : Z) :
  (0 < limit)%Z ->
  getEmotionalMemory u personalityId (Some limit)
    `suffix_of` getEmotionalMemory u personalityId None
  /\ length (getEmotionalMemory u personalityId (Some limit))
     = Nat.min (Z.to_nat limit)
         (length (getEmotionalMemory u personalityId None)).
Proof.
  intros Hpos.
  rewrite (getEmotionalMemory_positive_limit u personalityId limit Hpos).
  split; [apply suffix_drop|].
  rewrite length_drop. lia.
Qed.

Lemma X13_positive_limit_is_a_tail_witness :
  (0 < 5)%Z
  /\ getEmotionalMemory afterThreeEvents "agent1" (Some 5%Z)
       `suffix_of` getEmotionalMemory afterThreeEvents "agent1" None
  /\ length (getEmotionalMemory afterThreeEvents "agent1" (Some 5%Z))
     = Nat.min (Z.to_nat 5)
         (length (getEmotionalMemory afterThreeEvents "agent1" None)).
Proof.
  assert (H : (0 < 5)%Z) by reflexivity.
  split; [exact H|].
  exact (X13_positive_limit_is_a_tail afterThreeEvents "agent1" 5%Z H).
Defined.

(** X14: with a negative limit [getEmotionalMemory] does not answer a
    tail of that length: it drops the oldest entries, as many as the
    absolute value of the limit, and answers all the others. *)
Theorem X14_negative_limit_drops_the_oldest u (personalityId : string) (limit : Z) :
  (limit < 0)%Z ->
  getEmotionalMemory u personalityId (Some limit)
    = drop (Z.to_nat (- limit)) (getEmotionalMemory u personalityId None).
Proof.
  intros Hneg. unfold getEmotionalMemory. simpl.
  destruct (Z.eqb_spec limit 0) as [->|_]; [lia|].
  unfold slice. destruct (Z.ltb_spec (- limit) 0); [lia|].
  set (log := default [] (emotionalMemory u !! personalityId)).
  destruct (Z.min_spec (- limit) (Z.of_nat (length log))) as [[Hlt ->]|[Hge ->]].
  - reflexivity.
  - rewrite Nat2Z.id. rewrite drop_all. symmetry. apply drop_ge. lia.
Qed.

Lemma X14_negative_limit_drops_the_oldest_witness :
  (-1 < 0)%Z
  /\ getEmotionalMemory afterThreeEvents "agent1" (Some (-1)%Z)
     = drop (Z.to_nat (- (-1))) (getEmotionalMemory afterThreeEvents "agent1" None)
  /\ getEmotionalMemory afterThreeEvents "agent1" (Some (-1)%Z) = [eventB; eventC].
Proof.
  assert (H : (-1 < 0)%Z) by reflexivity.
  split; [exact H|]. split; [|reflexivity].
  exact (X14_negative_limit_drops_the_oldest afterThreeEvents "agent1" (-1)%Z H).
Defined.

(** X15: whatever the event, [processEvent] returns a relationship entry
    for the source of the event only, never for the personality itself nor
    for an empty source, and the value of the entry is within [-1, 1]. *)
Theorem X15_relationship_updates u p e (key : string) (r : Q) :
  relationshipUpdates (processEvent u p e).2 !! key = Some r ->
  key = source e /\ key <> id p /\ key <> "" /\ -1 <= r <= 1.
Proof.
  change (relationshipUpdates (processEvent u p e).2)
    with (calculateRelationshipUpdates p e).
  intros H.
  pose proof (calculateRelationshipUpdates_range p e key r H) as Hr.
  unfold calculateRelationshipUpdates, truthy in H.
  destruct (String.eqb_spec (source e) "") as [Hs|Hs]; simpl in H;
    [rewrite lookup_empty in H; discriminate|].
  destruct (String.eqb_spec (source e) (id p)) as [Hi|Hi]; simpl in H;
    [rewrite lookup_empty in H; discriminate|].
  apply lookup_insert_Some in H.
  destruct H as [[Hk _]|[_ H]]; [|rewrite lookup_empty in H; discriminate].
  subst key. repeat split; trivial; apply Hr.
Qed.

Lemma X15_relationship_updates_witness :
  relationshipUpdates (processEvent newUpdater acquaintanceOfX eventC).2 !! "X"
    = Some (Qmax (-1) (Qmin 1 (Num.orZero 0.98 + -0.8 * 1 * 0.05)))
  /\ "X" = source eventC /\ "X" <> id acquaintanceOfX /\ "X" <> ""
  /\ -1 <= Qmax (-1) (Qmin 1 (Num.orZero 0.98 + -0.8 * 1 * 0.05)) <= 1.
Proof.
  assert (H : relationshipUpdates
                (processEvent newUpdater acquaintanceOfX eventC).2 !! "X"
              = Some (Qmax (-1) (Qmin 1 (Num.orZero 0.98 + -0.8 * 1 * 0.05))))
    by reflexivity.
  split; [exact H|].
  exact (X15_relationship_updates newUpdater acquaintanceOfX eventC "X" _ H).
Defined.

(** X16: a personality at its baseline is left alone by decay: when every
    adaptive trait that has a base trait equals it and every mood field is
    0.5, every delta [decayPersonality] returns is zero, and a tick leaves
    every value as it was. *)
Theorem X16_decay_is_idle_at_baseline p :
  (forall (traitName : string) trait baseTrait,
     adaptiveTraits p !! traitName = Some trait ->
     baseTraits p !! traitName = Some baseTrait ->
     value trait == value baseTrait) ->
  happiness (mood p) == 0.5 -> energy (mood p) == 0.5 ->
  stress (mood p) == 0.5 -> dominance (mood p) == 0.5 ->
  (forall (traitName : string) d,
     traitUpdates (decayPersonality p) !! traitName = Some d -> d == 0)
  /\ Num.optEq (p_happiness (moodUpdates (decayPersonality p))) (Some 0)
  /\ Num.optEq (p_energy (moodUpdates (decayPersonality p))) (Some 0)
  /\ Num.optEq (p_stress (moodUpdates (decayPersonality p))) (Some 0)
  /\ Num.optEq (p_dominance (moodUpdates (decayPersonality p))) (Some 0)
  /\ (forall (traitName : string) trait,
        adaptiveTraits p !! traitName = Some trait ->
        exists trait',
          adaptiveTraits (decayTick p) !! traitName = Some trait'
          /\ value trait' == value trait)
  /\ happiness (mood (decayTick p)) == happiness (mood p)
  /\ energy (mood (decayTick p)) == energy (mood p)
  /\ stress (mood (decayTick p)) == stress (mood p)
  /\ dominance (mood (decayTick p)) == dominance (mood p).
Proof.
  intros Ht Hh He Hs Hd.
  split; [|split; [|split; [|split; [|split; [|split]]]]].
  - intros traitName d. rewrite decay_traitUpdates_lookup.
    destruct (adaptiveTraits p !! traitName) as [trait|] eqn:Ha;
      [|discriminate].
    destruct (baseTraits p !! traitName) as [baseTrait|] eqn:Hb;
      [|discriminate].
    intros [= <-]. specialize (Ht _ _ _ Ha Hb). lra.
  - simpl. unfold decayRate. lra.
  - simpl. unfold decayRate. lra.
  - simpl. unfold decayRate. lra.
  - simpl. unfold decayRate. lra.
  - intros traitName trait Ha.
    destruct (baseTraits p !! traitName) as [baseTrait|] eqn:Hb.
    + eexists. split; [apply (decayTick_adaptive _ _ _ _ Ha Hb)|].
      specialize (Ht _ _ _ Ha Hb). cbn [value setValue]. lra.
    + exists trait. split; [apply (decayTick_adaptive_unpaired _ _ _ Ha Hb)|].
      reflexivity.
  - rewrite decayTick_mood. cbn [happiness energy stress dominance].
    repeat split; lra.
Qed.

Lemma X16_decay_is_idle_at_baseline_witness :
  (forall (traitName : string) d,
     traitUpdates (decayPersonality settled) !! traitName = Some d -> d == 0)
  /\ happiness (mood (decayTick settled)) == 0.5
  /\ exists trait',
       adaptiveTraits (decayTick settled) !! "sociability" = Some trait'
       /\ value trait' == 0.9.
Proof.
  assert (Ht : forall (traitName : string) trait baseTrait,
            adaptiveTraits settled !! traitName = Some trait ->
            baseTraits settled !! traitName = Some baseTrait ->
            value trait == value baseTrait).
  { intros traitName trait baseTrait. unfold settled. simpl.
    destruct (String.string_dec traitName "sociability") as [->|Hne].
    - rewrite !lookup_singleton_eq. intros [= <-] [= <-]. reflexivity.
    - rewrite lookup_singleton_ne by congruence. discriminate. }
  assert (H5 : (0.5 == 0.5)%Q) by reflexivity.
  pose proof (X16_decay_is_idle_at_baseline settled Ht H5 H5 H5 H5)
    as (H1 & _ & _ & _ & _ & H6 & H7 & _).
  split; [exact H1|]. split; [exact H7|].
  exact (H6 "sociability" (mkTrait "sociability" 0.9 social "adapted") eq_refl).
Defined.




End UpdaterMore.

(** ** PersonalityStorage with object identity: creation, templates, sharing *)

Section StorageObjectsFacts.

Import StorageObjects.
Local Open Scope Q_scope.

Implicit Types (st : PersonalityStorage) (p : Personality) (tmpl : Template).

Lemma mapGet_mapSet_eq {V} (key : string) (v : V) (m : list (string * V)) :
  mapGet key (mapSet key v m) = Some v.
Proof.
  induction m as [|[k v'] m IH]; simpl.
  - rewrite String.eqb_refl. reflexivity.
  - destruct (String.eqb k key) eqn:E; simpl; rewrite E; [reflexivity|exact IH].
Qed.

Lemma mapGet_mapSet_ne {V} (key key' : string) (v : V) (m : list (string * V)) :
  key' <> key -> mapGet key' (mapSet key v m) = mapGet key' m.
Proof.
  intros Hne. induction m as [|[k v'] m IH]; simpl.
  - destruct (String.eqb_spec key key'); [congruence|reflexivity].
  - destruct (String.eqb_spec k key) as [->|Hk]; simpl.
    + destruct (String.eqb_spec key key'); [congruence|reflexivity].
    + destruct (String.eqb k key'); [reflexivity|exact IH].
Qed.

Lemma keys_mapSet_present {V} (key : string) (v : V) (m : list (string * V)) :
  In key (map fst m) -> map fst (mapSet key v m) = map fst m.
Proof.
  induction m as [|[k v'] m IH]; simpl; [tauto|].
  intros Hin. destruct (String.eqb_spec k key) as [->|Hk]; simpl; [reflexivity|].
  f_equal. apply IH. destruct Hin; [congruence|assumption].
Qed.

Lemma keys_mapSet_absent {V} (key : string) (v : V) (m : list (string * V)) :
  ~ In key (map fst m) -> map fst (mapSet key v m) = map fst m ++ [key].
Proof.
  induction m as [|[k v'] m IH]; simpl; [reflexivity|].
  intros Hnin. destruct (String.eqb_spec k key) as [->|Hk]; simpl; [tauto|].
  f_equal. apply IH. tauto.
Qed.

Lemma mapGet_None_keys {V} (key : string) (m : list (string * V)) :
  mapGet key m = None <-> ~ In key (map fst m).
Proof.
  induction m as [|[k v] m IH]; simpl; [tauto|].
  destruct (String.eqb_spec k key) as [->|Hk].
  - split; [discriminate|tauto].
  - rewrite IH. tauto.
Qed.

Lemma fresh_mood_ref st (r : ref) (m : Storage.Mood) :
  moodObjects st !! r = Some m -> r <> fresh (dom (moodObjects st)).
Proof.
  intros H ->. apply (is_fresh (dom (moodObjects st))).
  apply elem_of_dom. eexists. exact H.
Qed.

Lemma fresh_mood_ref_None st :
  moodObjects st !! fresh (dom (moodObjects st)) = None.
Proof. apply not_elem_of_dom, is_fresh. Qed.

Lemma createPersonality_state st (agentId : string) template :
  (createPersonality st agentId template).1 =
    mkStorage (traitObjects st)
      (<[fresh (dom (moodObjects st)) := Storage.mkMood 0.5 0.5 0.5 0.5]>
         (moodObjects st))
      (<[agentId := (createPersonality st agentId template).2]> (personalities st))
      (templates st)
      (emitted st ++
         [PersonalityCreated agentId (createPersonality st agentId template).2]).
Proof. reflexivity. Qed.

Lemma personalities_createPersonality st (agentId : string) template :
  personalities (createPersonality st agentId template).1
    = <[agentId := (createPersonality st agentId template).2]> (personalities st).
Proof. reflexivity. Qed.

Lemma createPersonality_plain st (agentId : string) template :
  (forall name : string,
     template = Some name -> name = "" \/ mapGet name (templates st) = None) ->
  (createPersonality st agentId template).2
    = mkPersonality agentId ∅ ∅ (fresh (dom (moodObjects st))) ∅.
Proof.
  intros H. unfold createPersonality. simpl.
  destruct template as [name|]; [|reflexivity].
  destruct (H name eq_refl) as [->|Hn]; [reflexivity|].
  rewrite Hn. destruct (truthy name); reflexivity.
Qed.

Lemma createPersonality_template st (agentId name : string) tmpl :
  name <> "" ->
  mapGet name (templates st) = Some tmpl ->
  (createPersonality st agentId (Some name)).2
    = mkPersonality (default agentId (t_id tmpl))
        (default ∅ (t_baseTraits tmpl)) ∅
        (default (fresh (dom (moodObjects st))) (t_mood tmpl))
        (default ∅ (t_relationships tmpl)).
Proof.
  intros Hne Hget. unfold createPersonality, truthy. simpl.
  apply String.eqb_neq in Hne. rewrite Hne, Hget. simpl.
  f_equal. apply (left_id_L ∅ (∪)).
Qed.

Lemma createPersonality_keeps_mood st (agentId : string) template
    (r : ref) (m : Storage.Mood) :
  moodObjects st !! r = Some m ->
  moodObjects (createPersonality st agentId template).1 !! r = Some m.
Proof.
  intros H. rewrite createPersonality_state. simpl.
  rewrite lookup_insert_ne; [exact H|].
  intros E. apply (fresh_mood_ref st r m H). congruence.
Qed.

Lemma moodOf_createPersonality st (agentId : string) template :
  moodOf (createPersonality st agentId template).1 agentId
    = moodObjects (createPersonality st agentId template).1
        !! mood (createPersonality st agentId template).2.
Proof.
  rewrite createPersonality_state at 1. unfold moodOf. simpl.
  rewrite lookup_insert_eq. reflexivity.
Qed.

Lemma createPersonality_shares_mood st (agentId name : string) tmpl
    (r : ref) (m : Storage.Mood) :
  name <> "" ->
  mapGet name (templates st) = Some tmpl ->
  t_mood tmpl = Some r ->
  moodObjects st !! r = Some m ->
  mood (createPersonality st agentId (Some name)).2 = r
  /\ moodOf (createPersonality st agentId (Some name)).1 agentId = Some m.
Proof.
  intros Hne Hget Hr Hobj.
  assert (Hm : mood (createPersonality st agentId (Some name)).2 = r).
  { rewrite (createPersonality_template st agentId name tmpl Hne Hget), Hr.
    reflexivity. }
  split; [exact Hm|].
  rewrite moodOf_createPersonality, Hm.
  apply createPersonality_keeps_mood, Hobj.
Qed.

Lemma createPersonality_shares_traits st (agentId name : string) tmpl
    (traits : gmap string ref) :
  name <> "" ->
  mapGet name (templates st) = Some tmpl ->
  t_baseTraits tmpl = Some traits ->
  baseTraits (createPersonality st agentId (Some name)).2 = traits.
Proof.
  intros Hne Hget Hb.
  rewrite (createPersonality_template st agentId name tmpl Hne Hget), Hb.
  reflexivity.
Qed.

Lemma updateMood_state st (agentId : string) moodUpdates p (m : Storage.Mood) :
  personalities st !! agentId = Some p ->
  moodObjects st !! mood p = Some m ->
  updateMood st agentId moodUpdates =
    mkStorage (traitObjects st)
      (<[mood p := Storage.assignMood m moodUpdates]> (moodObjects st))
      (personalities st) (templates st)
      (emitted st ++ [MoodUpdated agentId (mood p)]).
Proof. intros Hp Hm. unfold updateMood. rewrite Hp, Hm. reflexivity. Qed.

Lemma updateTrait_state st (agentId traitName : string) v isAdaptive p
    (r : ref) (t : Storage.PersonalityTrait) :
  personalities st !! agentId = Some p ->
  traitMapOf p isAdaptive !! traitName = Some r ->
  traitObjects st !! r = Some t ->
  updateTrait st agentId traitName v isAdaptive =
    mkStorage
      (<[r := Storage.setValue t (Qmax 0 (Qmin 1 v))]> (traitObjects st))
      (moodObjects st) (personalities st) (templates st)
      (emitted st ++ [TraitUpdated agentId traitName v isAdaptive]).
Proof.
  intros Hp Hr Ht. unfold updateTrait. rewrite Hp, Hr, Ht. reflexivity.
Qed.

(** X19: [createPersonality] called without a template, with the empty
    string, or with a name that is not registered stores and returns a
    personality with the agent's id, no trait, no relationship and a mood
    object of its own, new, with 0.5 in its four fields; the result is the
    same whether or not the agent had a personality before. *)
Theorem X19_createPersonality_without_template st (agentId : string) template :
  (forall name : string,
     template = Some name -> name = "" \/ mapGet name (templates st) = None) ->
  let st' := (createPersonality st agentId template).1 in
  let p := (createPersonality st agentId template).2 in
  getPersonality st' agentId = Some p
  /\ id p = agentId /\ baseTraits p = ∅ /\ adaptiveTraits p = ∅
  /\ relationships p = ∅
  /\ moodObjects st !! mood p = None
  /\ moodOf st' agentId = Some (Storage.mkMood 0.5 0.5 0.5 0.5)
  /\ emitted st' = emitted st ++ [PersonalityCreated agentId p].
Proof.
  intros H st' p.
  assert (Hp : p = mkPersonality agentId ∅ ∅ (fresh (dom (moodObjects st))) ∅)
    by (apply createPersonality_plain, H).
  assert (He : emitted st' = emitted st ++ [PersonalityCreated agentId p])
    by reflexivity.
  assert (Hg : getPersonality st' agentId = Some p).
  { unfold getPersonality, st'. rewrite createPersonality_state.
    apply lookup_insert_eq. }
  assert (Hm : moodOf st' agentId = moodObjects st' !! mood p)
    by apply moodOf_createPersonality.
  split; [exact Hg|]. rewrite Hm. clear Hg Hm. revert He. rewrite Hp. simpl.
  intros He. do 4 (split; [reflexivity|]).
  split; [apply fresh_mood_ref_None|].
  split; [apply lookup_insert_eq|exact He].
Qed.

Lemma X19_createPersonality_without_template_witness :
  (forall name : string,
     Some "no-such-template" = Some name ->
     name = "" \/ mapGet name (templates newStorage) = None)
  /\ getPersonality (createPersonality newStorage "agent2" (Some "no-such-template")).1
       "agent2"
     = Some (createPersonality newStorage "agent2" (Some "no-such-template")).2
  /\ moodOf (createPersonality newStorage "agent2" (Some "no-such-template")).1
       "agent2"
     = Some (Storage.mkMood 0.5 0.5 0.5 0.5).
Proof.
  assert (H : forall name : string,
     Some "no-such-template" = Some name ->
     name = "" \/ mapGet name (templates newStorage) = None).
  { intros name [= <-]. right. vm_compute. reflexivity. }
  split; [exact H|].
  pose proof (X19_createPersonality_without_template newStorage "agent2"
                (Some "no-such-template") H) as (H1 & _ & _ & _ & _ & _ & H7 & _).
  split; [exact H1|exact H7].
Defined.

(** X20: [createPersonality] with the name, not empty, of a registered
    template stores and returns a personality whose base traits are the
    template's trait objects, whose adaptive traits are empty, whose mood
    is the template's own mood object when the template has one (a new
    object with 0.5 in its four fields otherwise), and whose id and
    relationships are the template's when the template has them. *)
Theorem X20_createPersonality_from_template st (agentId name : string) tmpl :
  name <> "" ->
  mapGet name (templates st) = Some tmpl ->
  let st' := (createPersonality st agentId (Some name)).1 in
  let p := (createPersonality st agentId (Some name)).2 in
  getPersonality st' agentId = Some p
  /\ id p = default agentId (t_id tmpl)
  /\ baseTraits p = default ∅ (t_baseTraits tmpl)
  /\ adaptiveTraits p = ∅
  /\ relationships p = default ∅ (t_relationships tmpl)
  /\ (forall (r : ref) (m : Storage.Mood),
        t_mood tmpl = Some r -> moodObjects st !! r = Some m ->
        mood p = r /\ moodOf st' agentId = Some m)
  /\ (t_mood tmpl = None ->
        moodObjects st !! mood p = None
        /\ moodOf st' agentId = Some (Storage.mkMood 0.5 0.5 0.5 0.5)).
Proof.
  intros Hne Hget st' p.
  pose proof (createPersonality_template st agentId name tmpl Hne Hget) as Hp.
  fold p in Hp.
  assert (Hg : getPersonality st' agentId = Some p).
  { unfold getPersonality, st'. rewrite createPersonality_state.
    apply lookup_insert_eq. }
  assert (Hm : moodOf st' agentId = moodObjects st' !! mood p)
    by apply moodOf_createPersonality.
  split; [exact Hg|]. rewrite Hm. clear Hg Hm. rewrite Hp. simpl.
  do 4 (split; [reflexivity|]). split.
  - intros r m Hr Hobj. rewrite Hr. simpl. split; [reflexivity|].
    rewrite lookup_insert_ne; [exact Hobj|].
    intros E. apply (fresh_mood_ref st r m Hobj). congruence.
  - intros Hr. rewrite Hr. simpl.
    split; [apply fresh_mood_ref_None|apply lookup_insert_eq].
Qed.

Lemma X20_createPersonality_from_template_witness :
  "friendly" <> ""
  /\ (exists tmpl,
        mapGet "friendly" (templates newStorage) = Some tmpl
        /\ t_mood tmpl = Some 0%nat
        /\ moodObjects newStorage !! 0%nat = Some (Storage.mkMood 0.7 0.6 0.3 0.4)
        /\ moodOf (createPersonality newStorage "agent1" (Some "friendly")).1 "agent1"
           = Some (Storage.mkMood 0.7 0.6 0.3 0.4))
  /\ traitOf (createPersonality newStorage "agent1" (Some "friendly")).1 "agent1"
       false "empathy"
     = Some (Storage.mkTrait "empathy" 0.8 Storage.emotional
               "Ability to understand others' feelings").
Proof.
  assert (Hne : "friendly" <> "") by discriminate.
  split; [exact Hne|]. split; [|vm_compute; reflexivity].
  eexists. 
  assert (Hget : mapGet "friendly" (templates newStorage)
                 = Some (mkTemplate None
                           (Some (<["sociability" := 2%nat]>
                                    (<["empathy" := 1%nat]>
                                       (<["openness" := 0%nat]> ∅))))
                           None (Some 0%nat) None)) by (vm_compute; reflexivity).
  split; [exact Hget|]. split; [vm_compute; reflexivity|].
  assert (Hobj : moodObjects newStorage !! 0%nat
                 = Some (Storage.mkMood 0.7 0.6 0.3 0.4)) by (vm_compute; reflexivity).
  split; [exact Hobj|].
  pose proof (X20_createPersonality_from_template newStorage "agent1" "friendly"
                _ Hne Hget) as (_ & _ & _ & _ & _ & Hshare & _).
  exact (proj2 (Hshare 0%nat _ eq_refl Hobj)).
Defined.

(** X21: two personalities created from the same template share the
    template's mood object: [updateMood] on the first changes the mood read
    for the second in the same way, and every personality created from the
    template afterwards starts with the changed mood. *)
Theorem X21_template_mood_is_shared st (name a1 a2 : string) tmpl
    (r : ref) (m : Storage.Mood) moodUpdates :
  name <> "" ->
  mapGet name (templates st) = Some tmpl ->
  t_mood tmpl = Some r ->
  moodObjects st !! r = Some m ->
  let st1 := (createPersonality st a1 (Some name)).1 in
  let st2 := (createPersonality st1 a2 (Some name)).1 in
  let st3 := updateMood st2 a1 moodUpdates in
  moodOf st2 a2 = Some m
  /\ moodOf st3 a1 = Some (Storage.assignMood m moodUpdates)
  /\ moodOf st3 a2 = Some (Storage.assignMood m moodUpdates)
  /\ (forall a3 : string,
        moodOf (createPersonality st3 a3 (Some name)).1 a3
          = Some (Storage.assignMood m moodUpdates)).
Proof.
  intros Hne Hget Hr Hobj st1 st2 st3.
  destruct (createPersonality_shares_mood st a1 name tmpl r m Hne Hget Hr Hobj)
    as [Hm1 _].
  assert (Hget1 : mapGet name (templates st1) = Some tmpl) by exact Hget.
  assert (Hobj1 : moodObjects st1 !! r = Some m)
    by (apply createPersonality_keeps_mood, Hobj).
  destruct (createPersonality_shares_mood st1 a2 name tmpl r m Hne Hget1 Hr Hobj1)
    as [Hm2 Hread2].
  assert (Hobj2 : moodObjects st2 !! r = Some m)
    by (apply createPersonality_keeps_mood, Hobj1).
  assert (Hp2 : personalities st2 !! a2
                = Some (createPersonality st1 a2 (Some name)).2).
  { unfold st2. rewrite personalities_createPersonality.
    apply lookup_insert_eq. }
  assert (Hp1 : exists p, personalities st2 !! a1 = Some p /\ mood p = r).
  { destruct (decide (a1 = a2)) as [->|Hd].
    - eexists. split; [exact Hp2|exact Hm2].
    - exists (createPersonality st a1 (Some name)).2. split; [|exact Hm1].
      unfold st2. rewrite personalities_createPersonality.
      rewrite lookup_insert_ne by congruence.
      unfold st1. rewrite personalities_createPersonality.
      apply lookup_insert_eq. }
  destruct Hp1 as (p1 & Hp1 & Hmp1).
  assert (Hst3 : st3 = mkStorage (traitObjects st2)
             (<[r := Storage.assignMood m moodUpdates]> (moodObjects st2))
             (personalities st2) (templates st2)
             (emitted st2 ++ [MoodUpdated a1 r])).
  { unfold st3. rewrite (updateMood_state st2 a1 moodUpdates p1 m Hp1);
      rewrite Hmp1; [reflexivity|exact Hobj2]. }
  split; [exact Hread2|].
  split; [|split].
  - unfold moodOf. rewrite Hst3. cbn [personalities moodObjects]. rewrite Hp1, Hmp1.
    apply lookup_insert_eq.
  - unfold moodOf. rewrite Hst3. cbn [personalities moodObjects]. rewrite Hp2, Hm2.
    apply lookup_insert_eq.
  - intros a3.
    apply (createPersonality_shares_mood st3 a3 name tmpl r _ Hne).
    + rewrite Hst3. exact Hget.
    + exact Hr.
    + rewrite Hst3. cbn [moodObjects]. apply lookup_insert_eq.
Qed.

Lemma X21_template_mood_is_shared_witness :
  "friendly" <> ""
  /\ moodObjects newStorage !! 0%nat = Some (Storage.mkMood 0.7 0.6 0.3 0.4)
  /\ moodOf
       (updateMood
          (createPersonality
             (createPersonality newStorage "agent1" (Some "friendly")).1
             "agent2" (Some "friendly")).1
          "agent1" (Storage.mkPartialMood (Some 0) None None None))
       "agent2"
     = Some (Storage.assignMood (Storage.mkMood 0.7 0.6 0.3 0.4)
               (Storage.mkPartialMood (Some 0) None None None)).
Proof.
  assert (Hne : "friendly" <> "") by discriminate.
  assert (Hget : mapGet "friendly" (templates newStorage)
                 = Some (mkTemplate None
                           (Some (<["sociability" := 2%nat]>
                                    (<["empathy" := 1%nat]>
                                       (<["openness" := 0%nat]> ∅))))
                           None (Some 0%nat) None)) by (vm_compute; reflexivity).
  assert (Hobj : moodObjects newStorage !! 0%nat
                 = Some (Storage.mkMood 0.7 0.6 0.3 0.4)) by (vm_compute; reflexivity).
  split; [exact Hne|]. split; [exact Hobj|].
  pose proof (X21_template_mood_is_shared newStorage "friendly" "agent1" "agent2"
                _ 0%nat _ (Storage.mkPartialMood (Some 0) None None None)
                Hne Hget eq_refl Hobj) as (_ & _ & H & _).
  exact H.
Defined.

(** X22: two personalities created from the same template share the
    template's trait objects: [updateTrait] on a base trait of the first
    changes the trait read for the second to the same clamped value. *)
Theorem X22_template_traits_are_shared st (name a1 a2 traitName : string) tmpl
    (traits : gmap string ref) (r : ref) (t : Storage.PersonalityTrait) (v : Q) :
  name <> "" ->
  mapGet name (templates st) = Some tmpl ->
  t_baseTraits tmpl = Some traits ->
  traits !! traitName = Some r ->
  traitObjects st !! r = Some t ->
  let st1 := (createPersonality st a1 (Some name)).1 in
  let st2 := (createPersonality st1 a2 (Some name)).1 in
  let st3 := updateTrait st2 a1 traitName v false in
  traitOf st2 a2 false traitName = Some t
  /\ traitOf st3 a2 false traitName
     = Some (Storage.setValue t (Num.clamp 0 1 v)).
Proof.
  intros Hne Hget Hb Hr Hobj st1 st2 st3.
  pose proof (createPersonality_shares_traits st a1 name tmpl traits Hne Hget Hb)
    as Hb1.
  assert (Hget1 : mapGet name (templates st1) = Some tmpl) by exact Hget.
  pose proof (createPersonality_shares_traits st1 a2 name tmpl traits Hne Hget1 Hb)
    as Hb2.
  assert (Hobj2 : traitObjects st2 !! r = Some t) by exact Hobj.
  assert (Hp2 : personalities st2 !! a2
                = Some (createPersonality st1 a2 (Some name)).2).
  { unfold st2. rewrite personalities_createPersonality.
    apply lookup_insert_eq. }
  assert (Hp1 : exists p, personalities st2 !! a1 = Some p /\ baseTraits p = traits).
  { destruct (decide (a1 = a2)) as [->|Hd].
    - eexists. split; [exact Hp2|exact Hb2].
    - exists (createPersonality st a1 (Some name)).2. split; [|exact Hb1].
      unfold st2. rewrite personalities_createPersonality.
      rewrite lookup_insert_ne by congruence.
      unfold st1. rewrite personalities_createPersonality.
      apply lookup_insert_eq. }
  destruct Hp1 as (p1 & Hp1 & Hbp1).
  assert (Hr1 : traitMapOf p1 false !! traitName = Some r)
    by (unfold traitMapOf; rewrite Hbp1; exact Hr).
  split.
  - unfold traitOf, traitMapOf. rewrite Hp2, Hb2, Hr. exact Hobj2.
  - unfold st3. rewrite (updateTrait_state st2 a1 traitName v false p1 r t Hp1 Hr1 Hobj2).
    unfold traitOf, traitMapOf. cbn [personalities traitObjects]. rewrite Hp2, Hb2, Hr.
    apply lookup_insert_eq.
Qed.

Lemma X22_template_traits_are_shared_witness :
  "friendly" <> ""
  /\ traitObjects newStorage !! 2%nat
     = Some (Storage.mkTrait "sociability" 0.9 Storage.social
               "Tendency to seek social interaction")
  /\ traitOf
       (updateTrait
          (createPersonality
             (createPersonality newStorage "agent1" (Some "friendly")).1
             "agent2" (Some "friendly")).1
          "agent1" "sociability" (-3) false)
       "agent2" false "sociability"
     = Some (Storage.setValue
               (Storage.mkTrait "sociability" 0.9 Storage.social
                  "Tendency to seek social interaction")
               (Num.clamp 0 1 (-3))).
Proof.
  assert (Hne : "friendly" <> "") by discriminate.
  assert (Hget : mapGet "friendly" (templates newStorage)
                 = Some (mkTemplate None
                           (Some (<["sociability" := 2%nat]>
                                    (<["empathy" := 1%nat]>
                                       (<["openness" := 0%nat]> ∅))))
                           None (Some 0%nat) None)) by (vm_compute; reflexivity).
  assert (Hobj : traitObjects newStorage !! 2%nat
     = Some (Storage.mkTrait "sociability" 0.9 Storage.social
               "Tendency to seek social interaction")) by (vm_compute; reflexivity).
  split; [exact Hne|]. split; [exact Hobj|].
  exact (proj2 (X22_template_traits_are_shared newStorage "friendly"
                  "agent1" "agent2" "sociability" _ _ 2%nat _ (-3)
                  Hne Hget eq_refl eq_refl Hobj)).
Defined.

(** X23: two different agents created without a template have mood
    objects of their own: [updateMood] on the first leaves the mood of the
    second at 0.5 in its four fields. *)
Theorem X23_plain_personalities_share_nothing st (a1 a2 : string) moodUpdates :
  a1 <> a2 ->
  let st1 := (createPersonality st a1 None).1 in
  let st2 := (createPersonality st1 a2 None).1 in
  let st3 := updateMood st2 a1 moodUpdates in
  moodOf st3 a1
    = Some (Storage.assignMood (Storage.mkMood 0.5 0.5 0.5 0.5) moodUpdates)
  /\ moodOf st3 a2 = Some (Storage.mkMood 0.5 0.5 0.5 0.5).
Proof.
  intros Hd st1 st2 st3.
  set (r1 := fresh (dom (moodObjects st))).
  set (r2 := fresh (dom (moodObjects st1))).
  assert (Hobj1 : moodObjects st1 !! r1 = Some (Storage.mkMood 0.5 0.5 0.5 0.5))
    by apply lookup_insert_eq.
  assert (Hr : r1 <> r2) by (apply (fresh_mood_ref st1 r1 _ Hobj1)).
  assert (Hp1 : personalities st2 !! a1 = Some (mkPersonality a1 ∅ ∅ r1 ∅)).
  { unfold st2. rewrite personalities_createPersonality.
    rewrite lookup_insert_ne by congruence. apply lookup_insert_eq. }
  assert (Hp2 : personalities st2 !! a2 = Some (mkPersonality a2 ∅ ∅ r2 ∅))
    by apply lookup_insert_eq.
  assert (Hobj2 : moodObjects st2 !! r1 = Some (Storage.mkMood 0.5 0.5 0.5 0.5))
    by (apply createPersonality_keeps_mood, Hobj1).
  unfold st3.
  rewrite (updateMood_state st2 a1 moodUpdates _ _ Hp1 Hobj2).
  unfold moodOf. cbn [personalities moodObjects]. rewrite Hp1, Hp2.
  cbn [mood]. split.
  - apply lookup_insert_eq.
  - rewrite lookup_insert_ne by exact Hr. apply lookup_insert_eq.
Qed.

Lemma X23_plain_personalities_share_nothing_witness :
  "agent1" <> "agent2"
  /\ moodOf
       (updateMood
          (createPersonality (createPersonality newStorage "agent1" None).1
             "agent2" None).1
          "agent1" (Storage.mkPartialMood (Some 0) None None None))
       "agent2"
     = Some (Storage.mkMood 0.5 0.5 0.5 0.5).
Proof.
  assert (Hd : "agent1" <> "agent2") by discriminate.
  split; [exact Hd|].
  exact (proj2 (X23_plain_personalities_share_nothing newStorage
                  "agent1" "agent2"
                  (Storage.mkPartialMood (Some 0) None None None) Hd)).
Defined.

(** X24: [addTemplate] registers or replaces one template and leaves the
    others; [getTemplates] lists the names in the order of their first
    registration: a name already registered keeps its place, a new name
    goes to the end, and no name is listed twice.  A new store lists
    friendly, then analytical. *)
Theorem X24_templates_keep_insertion_order st (name : string) tmpl :
  mapGet name (templates (addTemplate st name tmpl)) = Some tmpl
  /\ (forall other : string,
        other <> name ->
        mapGet other (templates (addTemplate st name tmpl))
          = mapGet other (templates st))
  /\ (In name (getTemplates st) ->
        getTemplates (addTemplate st name tmpl) = getTemplates st)
  /\ (~ In name (getTemplates st) ->
        getTemplates (addTemplate st name tmpl) = getTemplates st ++ [name])
  /\ (NoDup (getTemplates st) -> NoDup (getTemplates (addTemplate st name tmpl)))
  /\ getTemplates newStorage = ["friendly"; "analytical"]%string.
Proof.
  split; [apply mapGet_mapSet_eq|].
  split; [intros other Hne; apply mapGet_mapSet_ne, Hne|].
  split; [apply keys_mapSet_present|].
  split; [apply keys_mapSet_absent|].
  split; [|vm_compute; reflexivity].
  intros Hnd. unfold getTemplates, addTemplate. simpl.
  destruct (in_dec String.string_dec name (map fst (templates st))) as [Hin|Hnin].
  - rewrite keys_mapSet_present by exact Hin. exact Hnd.
  - rewrite keys_mapSet_absent by exact Hnin.
    apply NoDup_app. split; [exact Hnd|]. split.
    + intros x Hx Hx'. apply list_elem_of_In in Hx.
      apply list_elem_of_singleton in Hx'. subst x. exact (Hnin Hx).
    + apply NoDup_singleton.
Qed.

Lemma X24_templates_keep_insertion_order_witness :
  In "friendly" (getTemplates newStorage)
  /\ getTemplates
       (addTemplate newStorage "friendly" (mkTemplate None None None None None))
     = ["friendly"; "analytical"]%string
  /\ ~ In "stoic" (getTemplates newStorage)
  /\ getTemplates
       (addTemplate newStorage "stoic" (mkTemplate None None None None None))
     = ["friendly"; "analytical"; "stoic"]%string
  /\ NoDup (getTemplates newStorage)
  /\ NoDup (getTemplates
              (addTemplate newStorage "stoic"
                 (mkTemplate None None None None None))).
Proof.
  assert (E : getTemplates newStorage = ["friendly"; "analytical"]%string)
    by (vm_compute; reflexivity).
  assert (Hin : In "friendly" (getTemplates newStorage))
    by (rewrite E; left; reflexivity).
  assert (Hnin : ~ In "stoic" (getTemplates newStorage)).
  { rewrite E. intros [H|[H|[]]]; discriminate H. }
  assert (Hnd : NoDup (getTemplates newStorage)).
  { rewrite E. apply NoDup_cons. split; [|apply NoDup_singleton].
    intros H. apply list_elem_of_singleton in H. discriminate H. }
  pose proof (X24_templates_keep_insertion_order newStorage "friendly"
                (mkTemplate None None None None None))
    as (_ & _ & H3 & _).
  pose proof (X24_templates_keep_insertion_order newStorage "stoic"
                (mkTemplate None None None None None))
    as (_ & _ & _ & H4 & H5 & _).
  split; [exact Hin|]. split; [rewrite <- E; exact (H3 Hin)|].
  split; [exact Hnin|].
  split; [rewrite (H4 Hnin), E; reflexivity|].
  split; [exact Hnd|exact (H5 Hnd)].
Defined.

Lemma objectsInRange_createPersonality st (agentId : string) template :
  objectsInRange st -> objectsInRange (createPersonality st agentId template).1.
Proof.
  intros [Ht Hm]. rewrite createPersonality_state.
  split; [exact Ht|]. cbn [moodObjects].
  apply map_Forall_insert_2; [simpl; repeat split; lra|exact Hm].
Qed.

Lemma objectsInRange_updateTrait st (agentId traitName : string) v isAdaptive :
  objectsInRange st -> objectsInRange (updateTrait st agentId traitName v isAdaptive).
Proof.
  intros [Ht Hm]. unfold updateTrait.
  destruct (personalities st !! agentId) as [p|]; [|split; assumption].
  destruct (traitMapOf p isAdaptive !! traitName) as [r|]; [|split; assumption].
  destruct (traitObjects st !! r) as [t|]; [|split; assumption].
  split; [|exact Hm]. cbn [traitObjects].
  apply map_Forall_insert_2; [|exact Ht].
  simpl. apply (clamp_range 0 1 v). lra.
Qed.

Lemma objectsInRange_updateMood st (agentId : string) moodUpdates :
  objectsInRange st -> objectsInRange (updateMood st agentId moodUpdates).
Proof.
  intros [Ht Hm]. unfold updateMood.
  destruct (personalities st !! agentId) as [p|]; [|split; assumption].
  destruct (moodObjects st !! mood p) as [m|] eqn:E; [|split; assumption].
  split; [exact Ht|]. cbn [moodObjects].
  apply map_Forall_insert_2; [|exact Hm].
  destruct (Hm _ _ E) as (Hh & He & Hs & Hd). simpl.
  repeat split; apply writeMood_range; assumption.
Qed.

Lemma objectsInRange_newStorage : objectsInRange newStorage.
Proof.
  assert (Ht : traitObjects newStorage =
    <[5%nat := Storage.mkTrait "curiosity" 0.7 Storage.cognitive
                 "Drive to learn and understand"]>
    (<[4%nat := Storage.mkTrait "precision" 0.8 Storage.behavioral
                  "Attention to detail"]>
    (<[3%nat := Storage.mkTrait "logic" 0.9 Storage.cognitive
                  "Preference for logical thinking"]>
    (<[2%nat := Storage.mkTrait "sociability" 0.9 Storage.social
                  "Tendency to seek social interaction"]>
    (<[1%nat := Storage.mkTrait "empathy" 0.8 Storage.emotional
                  "Ability to understand others' feelings"]>
    (<[0%nat := Storage.mkTrait "openness" 0.7 Storage.cognitive
                  "Willingness to try new experiences"]> ∅))))))
    by (vm_compute; reflexivity).
  assert (Hm : moodObjects newStorage =
    <[1%nat := Storage.mkMood 0.5 0.6 0.4 0.5]>
      (<[0%nat := Storage.mkMood 0.7 0.6 0.3 0.4]> ∅)) by (vm_compute; reflexivity).
  split.
  - rewrite Ht.
    repeat (apply map_Forall_insert_2; [simpl; lra|]). apply map_Forall_empty.
  - rewrite Hm.
    repeat (apply map_Forall_insert_2; [simpl; repeat split; lra|]).
    apply map_Forall_empty.
Qed.

(** *** Templates written as object literals *)

Lemma allocTrait_keeps st (t t0 : Storage.PersonalityTrait) (r : ref) :
  traitObjects st !! r = Some t0 ->
  traitObjects (allocTrait st t).1 !! r = Some t0.
Proof.
  intros H. cbn [allocTrait fst traitObjects].
  rewrite lookup_insert_ne; [exact H|].
  intros E. apply (is_fresh (dom (traitObjects st))).
  rewrite E. apply elem_of_dom. eexists. exact H.
Qed.

Lemma allocTrait_new st (t : Storage.PersonalityTrait) :
  traitObjects (allocTrait st t).1 !! (allocTrait st t).2 = Some t.
Proof. cbn [allocTrait fst snd traitObjects]. apply lookup_insert_eq. Qed.

Lemma allocTraits_frame st es acc :
  moodObjects (allocTraits st es acc).1 = moodObjects st
  /\ personalities (allocTraits st es acc).1 = personalities st
  /\ templates (allocTraits st es acc).1 = templates st
  /\ emitted (allocTraits st es acc).1 = emitted st.
Proof.
  revert st acc. induction es as [|[key t] es IH]; intros st acc.
  - repeat split.
  - cbn [allocTraits].
    destruct (IH (allocTrait st t).1 (<[key := (allocTrait st t).2]> acc))
      as (H1 & H2 & H3 & H4).
    rewrite H1, H2, H3, H4. repeat split.
Qed.

Lemma allocTraits_keeps st es acc (r : ref) (t0 : Storage.PersonalityTrait) :
  traitObjects st !! r = Some t0 ->
  traitObjects (allocTraits st es acc).1 !! r = Some t0.
Proof.
  revert st acc. induction es as [|[key t] es IH]; intros st acc H.
  - exact H.
  - cbn [allocTraits]. apply IH, allocTrait_keeps, H.
Qed.

Lemma allocTraits_other st es acc (key : string) :
  ~ In key (map fst es) ->
  (allocTraits st es acc).2 !! key = acc !! key.
Proof.
  revert st acc. induction es as [|[k t] es IH]; intros st acc Hnin.
  - reflexivity.
  - cbn [allocTraits]. simpl in Hnin. rewrite IH by tauto.
    apply lookup_insert_ne. intros ->. tauto.
Qed.

Lemma allocTraits_lookup st es acc (key : string) (t : Storage.PersonalityTrait) :
  NoDup (map fst es) -> In (key, t) es ->
  exists r : ref,
    (allocTraits st es acc).2 !! key = Some r
    /\ traitObjects (allocTraits st es acc).1 !! r = Some t.
Proof.
  revert st acc. induction es as [|[k t'] es IH]; intros st acc Hnd Hin.
  - destruct Hin.
  - cbn [map fst] in Hnd. apply NoDup_cons in Hnd as [Hk Hnd].
    cbn [allocTraits]. destruct Hin as [[= -> ->]|Hin].
    + exists (allocTrait st t).2. split.
      * rewrite allocTraits_other; [apply lookup_insert_eq|].
        intros Hin. apply Hk, list_elem_of_In, Hin.
      * apply allocTraits_keeps, allocTrait_new.
    + apply IH; assumption.
Qed.

Lemma allocTraits_in_range st es acc :
  map_Forall (fun _ t => 0 <= Storage.value t <= 1) (traitObjects st) ->
  Forall (fun e : string * Storage.PersonalityTrait =>
            0 <= Storage.value e.2 <= 1) es ->
  map_Forall (fun _ t => 0 <= Storage.value t <= 1)
             (traitObjects (allocTraits st es acc).1).
Proof.
  revert st acc. induction es as [|[key t] es IH]; intros st acc Hst Hes.
  - exact Hst.
  - cbn [allocTraits]. inversion Hes as [|e es' He Hes']; subst.
    apply IH; [|exact Hes'].
    cbn [allocTrait fst traitObjects].
    apply map_Forall_insert_2; [exact He|exact Hst].
Qed.

Lemma templateOfLiteral_state st (l : TemplateLiteral) :
  personalities (templateOfLiteral st l).1 = personalities st
  /\ templates (templateOfLiteral st l).1 = templates st
  /\ emitted (templateOfLiteral st l).1 = emitted st.
Proof.
  unfold templateOfLiteral, allocOptionalMood, allocTraitMap.
  destruct (l_mood l), (l_adaptiveTraits l) as [a|], (l_baseTraits l) as [b|];
    cbn [fst snd allocMood personalities templates emitted];
    repeat match goal with
    | |- context [allocTraits ?s ?e ?c] =>
        let H := fresh in
        pose proof (allocTraits_frame s e c) as (_ & H & ? & ?);
        rewrite H; clear H
    end;
    repeat split; congruence.
Qed.

Lemma templateOfLiteral_mood st (l : TemplateLiteral) (m : Storage.Mood) :
  l_mood l = Some m ->
  exists r : ref,
    t_mood (templateOfLiteral st l).2 = Some r
    /\ moodObjects (templateOfLiteral st l).1 !! r = Some m.
Proof.
  intros Hm. unfold templateOfLiteral, allocOptionalMood. rewrite Hm.
  cbn [fst snd t_mood allocMood moodObjects].
  eexists. split; [reflexivity|]. apply lookup_insert_eq.
Qed.

Lemma templateOfLiteral_no_mood st (l : TemplateLiteral) :
  l_mood l = None -> t_mood (templateOfLiteral st l).2 = None.
Proof.
  intros Hm. unfold templateOfLiteral, allocOptionalMood. rewrite Hm.
  reflexivity.
Qed.

Lemma templateOfLiteral_baseTraits st (l : TemplateLiteral) es
    (key : string) (t : Storage.PersonalityTrait) :
  l_baseTraits l = Some es ->
  NoDup (map fst es) -> In (key, t) es ->
  exists (traits : gmap string ref) (r : ref),
    t_baseTraits (templateOfLiteral st l).2 = Some traits
    /\ traits !! key = Some r
    /\ traitObjects (templateOfLiteral st l).1 !! r = Some t.
Proof.
  intros Hb Hnd Hin.
  destruct (allocTraits_lookup st es ∅ key t Hnd Hin) as (r & Hr & Hobj).
  exists (allocTraits st es ∅).2, r.
  unfold templateOfLiteral, allocOptionalMood, allocTraitMap. rewrite Hb.
  cbn [fst snd t_baseTraits].
  split; [reflexivity|]. split; [exact Hr|].
  assert (Ha : traitObjects
                 (match l_adaptiveTraits l with
                  | Some es0 =>
                      ((allocTraits (allocTraits st es ∅).1 es0 ∅).1,
                       Some (allocTraits (allocTraits st es ∅).1 es0 ∅).2)
                  | None => ((allocTraits st es ∅).1, None)
                  end).1 !! r = Some t).
  { destruct (l_adaptiveTraits l); cbn [fst];
      [apply allocTraits_keeps|]; exact Hobj. }
  destruct (l_mood l); cbn [fst allocMood traitObjects]; exact Ha.
Qed.

Lemma templateOfLiteral_in_range st (l : TemplateLiteral) :
  objectsInRange st -> literalInRange l ->
  objectsInRange (templateOfLiteral st l).1.
Proof.
  intros [Ht Hm] (Hb & Ha & Hmood).
  unfold templateOfLiteral, allocOptionalMood, allocTraitMap.
  set (b := match l_baseTraits l with
            | Some es => ((allocTraits st es ∅).1, Some (allocTraits st es ∅).2)
            | None => (st, None)
            end).
  assert (Hb1 : objectsInRange b.1).
  { unfold b. destruct (l_baseTraits l) as [es|]; cbn [fst]; [|split; assumption].
    split; [apply allocTraits_in_range; [exact Ht|apply Hb; reflexivity]|].
    destruct (allocTraits_frame st es ∅) as (-> & _). exact Hm. }
  clearbody b. destruct Hb1 as [Ht1 Hm1].
  set (a := match l_adaptiveTraits l with
            | Some es => ((allocTraits b.1 es ∅).1, Some (allocTraits b.1 es ∅).2)
            | None => (b.1, None)
            end).
  assert (Ha1 : objectsInRange a.1).
  { unfold a. destruct (l_adaptiveTraits l) as [es|]; cbn [fst];
      [|split; assumption].
    split; [apply allocTraits_in_range; [exact Ht1|apply Ha; reflexivity]|].
    destruct (allocTraits_frame b.1 es ∅) as (-> & _). exact Hm1. }
  clearbody a. destruct Ha1 as [Ht2 Hm2].
  destruct (l_mood l) as [m|]; cbn [fst]; [|split; assumption].
  split; [exact Ht2|]. cbn [allocMood fst moodObjects].
  apply map_Forall_insert_2; [apply Hmood; reflexivity|exact Hm2].
Qed.

Lemma objectsInRange_addTemplateLiteral st (name : string) (l : TemplateLiteral) :
  objectsInRange st -> literalInRange l ->
  objectsInRange (addTemplateLiteral st name l).
Proof.
  intros Hst Hl. destruct (templateOfLiteral_in_range st l Hst Hl) as [Ht Hm].
  split; assumption.
Qed.

(** X25: no call of the store pushes a trait or a mood object out of
    range, and only the caller can bring one in: when every trait and mood
    object holds values of [0, 1], it still does after any sequence of
    [createPersonality], [updateTrait], [updateMood] and [addTemplate]
    calls, with any values given to the updates, as long as the templates
    the sequence registers are made of objects already there or are
    literals whose values are in [0, 1]. *)
Theorem X25_objects_stay_in_range st (calls : list ObjectStoreCall) :
  Forall tameObjectCall calls ->
  objectsInRange st -> objectsInRange (runObjectStoreCalls st calls).
Proof.
  unfold runObjectStoreCalls. intros Hcalls. revert st.
  induction Hcalls as [|call calls Hcall _ IH]; intros st Hst; [exact Hst|].
  cbn [fold_left]. apply IH. destruct call; cbn [runObjectStoreCall].
  - apply objectsInRange_createPersonality, Hst.
  - apply objectsInRange_updateTrait, Hst.
  - apply objectsInRange_updateMood, Hst.
  - exact Hst.
  - apply objectsInRange_addTemplateLiteral; [exact Hst|exact Hcall].
Qed.

Lemma X25_objects_stay_in_range_witness :
  Forall tameObjectCall
    [ObjAddTemplateLiteral "calm"
       (mkTemplateLiteral None
          (Some [("patience", Storage.mkTrait "patience" 0.8 Storage.behavioral
                                "slow to anger")])
          None (Some (Storage.mkMood 0.6 0.4 0.1 0.5)) None);
     ObjCreatePersonality "agent1" (Some "calm");
     ObjCreatePersonality "agent2" (Some "friendly");
     ObjUpdateTrait "agent1" "patience" 4 false;
     ObjUpdateMood "agent2" (Storage.mkPartialMood None (Some (-2)) None None)]
  /\ objectsInRange newStorage
  /\ objectsInRange
       (runObjectStoreCalls newStorage
          [ObjAddTemplateLiteral "calm"
             (mkTemplateLiteral None
                (Some [("patience", Storage.mkTrait "patience" 0.8
                                      Storage.behavioral "slow to anger")])
                None (Some (Storage.mkMood 0.6 0.4 0.1 0.5)) None);
           ObjCreatePersonality "agent1" (Some "calm");
           ObjCreatePersonality "agent2" (Some "friendly");
           ObjUpdateTrait "agent1" "patience" 4 false;
           ObjUpdateMood "agent2"
             (Storage.mkPartialMood None (Some (-2)) None None)]).
Proof.
  assert (H : Forall tameObjectCall
    [ObjAddTemplateLiteral "calm"
       (mkTemplateLiteral None
          (Some [("patience", Storage.mkTrait "patience" 0.8 Storage.behavioral
                                "slow to anger")])
          None (Some (Storage.mkMood 0.6 0.4 0.1 0.5)) None);
     ObjCreatePersonality "agent1" (Some "calm");
     ObjCreatePersonality "agent2" (Some "friendly");
     ObjUpdateTrait "agent1" "patience" 4 false;
     ObjUpdateMood "agent2" (Storage.mkPartialMood None (Some (-2)) None None)]).
  { constructor; [|repeat constructor].
    split; [|split].
    - intros es [= <-]. constructor; [simpl; lra|constructor].
    - intros es [=].
    - intros m [= <-]. simpl. repeat split; lra. }
  split; [exact H|]. split; [exact objectsInRange_newStorage|].
  exact (X25_objects_stay_in_range newStorage _ H objectsInRange_newStorage).
Defined.

(** X31: [addTemplate] and [createPersonality] clamp nothing: a
    personality created from a template that was registered as an object
    literal reads the template's mood and base traits with the values the
    literal gave them, whatever they are, in [0, 1] or not; a literal
    without a mood gives the mood of 0.5. *)
Theorem X31_template_values_are_not_clamped st (name agentId : string)
    (l : TemplateLiteral) :
  name <> "" ->
  let st' :=
    (createPersonality (addTemplateLiteral st name l) agentId (Some name)).1 in
  (forall m : Storage.Mood, l_mood l = Some m -> moodOf st' agentId = Some m)
  /\ (l_mood l = None ->
        moodOf st' agentId = Some (Storage.mkMood 0.5 0.5 0.5 0.5))
  /\ (forall es (key : string) (t : Storage.PersonalityTrait),
        l_baseTraits l = Some es -> NoDup (map fst es) -> In (key, t) es ->
        traitOf st' agentId false key = Some t).
Proof.
  intros Hne st'.
  assert (Hget : mapGet name (templates (addTemplateLiteral st name l))
                 = Some (templateOfLiteral st l).2)
    by apply mapGet_mapSet_eq.
  pose proof (Hp := createPersonality_template
                (addTemplateLiteral st name l) agentId name _ Hne Hget).
  split; [|split].
  - intros m Hm.
    destruct (templateOfLiteral_mood st l m Hm) as (r & Hr & Hobj).
    exact (proj2 (createPersonality_shares_mood (addTemplateLiteral st name l)
                    agentId name _ r m Hne Hget Hr Hobj)).
  - intros Hm. unfold st'. rewrite moodOf_createPersonality, Hp.
    rewrite (templateOfLiteral_no_mood st l Hm). cbn [default mood].
    rewrite createPersonality_state. cbn [moodObjects].
    apply lookup_insert_eq.
  - intros es key t Hb Hnd Hin.
    destruct (templateOfLiteral_baseTraits st l es key t Hb Hnd Hin)
      as (traits & r & Htr & Hr & Hobj).
    unfold traitOf, st'. rewrite personalities_createPersonality.
    rewrite lookup_insert_eq. cbn [traitMapOf].
    rewrite Hp. cbn [baseTraits]. rewrite Htr.
    change (default ∅ (Some traits)) with traits.
    rewrite Hr. rewrite createPersonality_state. exact Hobj.
Qed.

Lemma X31_template_values_are_not_clamped_witness :
  "wild" <> ""
  /\ moodOf (createPersonality (addTemplateLiteral newStorage "wild" wildLiteral)
               "agent1" (Some "wild")).1 "agent1"
     = Some (Storage.mkMood 7 0.5 0.5 0.5)
  /\ traitOf (createPersonality (addTemplateLiteral newStorage "wild" wildLiteral)
                "agent1" (Some "wild")).1 "agent1" false "temper"
     = Some (Storage.mkTrait "temper" (-3) Storage.emotional "untamed").
Proof.
  assert (Hne : "wild" <> "") by discriminate.
  pose proof (X31_template_values_are_not_clamped newStorage "wild" "agent1"
                wildLiteral Hne) as (Hm & _ & Ht).
  split; [exact Hne|]. split; [exact (Hm _ eq_refl)|].
  apply (Ht [("temper", Storage.mkTrait "temper" (-3) Storage.emotional "untamed")]
            "temper" _ eq_refl).
  - apply NoDup_cons. split; [apply not_elem_of_nil|apply NoDup_nil_2].
  - left. reflexivity.
Defined.

(** X26: an update for an agent that has no personality, or for a trait
    name that is not in the map the flag selects, changes nothing and
    notifies nothing; an update that finds its object writes the clamped
    value there, so that reading it back gives the clamped value, and a
    trait update notifies the value as it was given. *)
Theorem X26_updates_write_or_do_nothing st (agentId traitName : string)
    (v : Q) (isAdaptive : bool) moodUpdates :
  (getPersonality st agentId = None ->
     updateTrait st agentId traitName v isAdaptive = st
     /\ updateMood st agentId moodUpdates = st)
  /\ (forall p, getPersonality st agentId = Some p ->
        traitMapOf p isAdaptive !! traitName = None ->
        updateTrait st agentId traitName v isAdaptive = st)
  /\ (forall t, traitOf st agentId isAdaptive traitName = Some t ->
        traitOf (updateTrait st agentId traitName v isAdaptive)
          agentId isAdaptive traitName
          = Some (Storage.setValue t (Num.clamp 0 1 v))
        /\ emitted (updateTrait st agentId traitName v isAdaptive)
           = emitted st ++ [TraitUpdated agentId traitName v isAdaptive])
  /\ (forall m, moodOf st agentId = Some m ->
        moodOf (updateMood st agentId moodUpdates) agentId
          = Some (Storage.assignMood m moodUpdates)).
Proof.
  unfold getPersonality, traitOf, moodOf, updateTrait, updateMood.
  destruct (personalities st !! agentId) as [p|] eqn:Hp.
  - split; [discriminate|]. split; [|split].
    + intros p' [= <-] Hr. rewrite Hr. reflexivity.
    + intros t. destruct (traitMapOf p isAdaptive !! traitName) as [r|] eqn:Hr;
        [|discriminate].
      intros Ht. rewrite Ht. cbn [personalities traitObjects emitted].
      rewrite Hp, Hr. split; [apply lookup_insert_eq|reflexivity].
    + intros m Hm. rewrite Hm. cbn [personalities moodObjects].
      rewrite Hp. apply lookup_insert_eq.
  - split; [intros _; split; reflexivity|].
    split; [discriminate|]. split; intros; discriminate.
Qed.

Lemma X26_updates_write_or_do_nothing_witness :
  getPersonality newStorage "ghost" = None
  /\ updateTrait newStorage "ghost" "empathy" 0.2 false = newStorage
  /\ updateMood newStorage "ghost" (Storage.mkPartialMood (Some 1) None None None)
     = newStorage.
Proof.
  assert (Hg : getPersonality newStorage "ghost" = None)
    by (vm_compute; reflexivity).
  pose proof (X26_updates_write_or_do_nothing newStorage "ghost" "empathy" 0.2
                false (Storage.mkPartialMood (Some 1) None None None))
    as (H1 & _).
  split; [exact Hg|exact (H1 Hg)].
Defined.

End StorageObjectsFacts.

(** ** StateManager: merged updates and notifications *)

Section StateManagerFacts.

Import Engine StateManager.
Local Open Scope Q_scope.

Implicit Types (m : StateManager) (s : PartialAgentState).

Variable throws : Callback -> Update -> bool.

Lemma state_notify m (type : string) (update : Update) :
  state (notify throws m type update) = state m.
Proof. unfold notify. destruct (subscribers m !! type); reflexivity. Qed.

Lemma subscribers_notify m (type : string) (update : Update) :
  subscribers (notify throws m type update) = subscribers m.
Proof. unfold notify. destruct (subscribers m !! type); reflexivity. Qed.

Lemma agents_updateAgent m (agentId : string) s :
  agents (state (updateAgent throws m agentId s)) =
    <[agentId :=
        mergeAgent (default (mkAgentState agentId (mkVector3 0 0 0) "idle" ∅)
                            (agents (state m) !! agentId)) s]>
      (agents (state m)).
Proof. unfold updateAgent. rewrite state_notify. reflexivity. Qed.


Lemma calls_app (es es' : list Effect) : calls (es ++ es') = calls es ++ calls es'.
Proof. unfold calls. apply flat_map_app. Qed.

Lemma errors_app (es es' : list Effect) :
  errors (es ++ es') = errors es ++ errors es'.
Proof. unfold errors. apply flat_map_app. Qed.

Lemma calls_of_notification (update : Update) (set : list Callback) :
  calls (flat_map
           (fun callback =>
              if throws callback update
              then [Called callback update; ErrorLogged callback]
              else [Called callback update]) set)
  = map (fun callback => (callback, update)) set.
Proof.
  induction set as [|c set IH]; [reflexivity|].
  cbn [flat_map map]. rewrite calls_app, IH.
  destruct (throws c update); reflexivity.
Qed.

Lemma errors_of_notification (update : Update) (set : list Callback) :
  errors (flat_map
            (fun callback =>
               if throws callback update
               then [Called callback update; ErrorLogged callback]
               else [Called callback update]) set)
  = List.filter (fun callback => throws callback update) set.
Proof.
  induction set as [|c set IH]; [reflexivity|].
  cbn [flat_map List.filter]. rewrite errors_app, IH.
  destruct (throws c update); reflexivity.
Qed.

Lemma setAdd_twice (callback : Callback) (set : list Callback) :
  setAdd callback (setAdd callback set) = setAdd callback set.
Proof.
  unfold setAdd. destruct (decide (callback ∈ set)) as [Hin|Hnin].
  - rewrite (bool_decide_eq_true_2 _ Hin). rewrite (bool_decide_eq_true_2 _ Hin).
    reflexivity.
  - rewrite (bool_decide_eq_false_2 _ Hnin).
    rewrite bool_decide_eq_true_2; [reflexivity|].
    apply elem_of_app. right. apply list_elem_of_singleton. reflexivity.
Qed.


(** X28: a notification calls every subscriber of its type once, in the
    order of subscription and with the same update, whether or not some of
    them throw; an error is logged for each one that throws and for no
    other; the subscriptions are as before.  A callback subscribed twice
    under a type is there once. *)
Theorem X28_notification_reaches_every_subscriber m (agentId : string) s :
  exists newState,
    agents (state (updateAgent throws m agentId s)) !! agentId = Some newState
    /\ calls (effects (updateAgent throws m agentId s))
       = calls (effects m)
         ++ map (fun callback => (callback, AgentUpdate agentId newState))
                (default [] (subscribers m !! "agent"))
    /\ errors (effects (updateAgent throws m agentId s))
       = errors (effects m)
         ++ List.filter
              (fun callback => throws callback (AgentUpdate agentId newState))
              (default [] (subscribers m !! "agent"))
    /\ subscribers (updateAgent throws m agentId s) = subscribers m
    /\ (forall (type : string) (callback : Callback),
          subscribers (subscribe (subscribe m type callback) type callback)
            = subscribers (subscribe m type callback))
    /\ (forall (type : string) (callback : Callback),
          ~ In callback
              (default [] (subscribers (unsubscribe m type callback) !! type))).
Proof.
  eexists. split; [rewrite agents_updateAgent; apply lookup_insert_eq|].
  split; [|split; [|split; [|split]]].
  - unfold updateAgent, notify. cbn [subscribers effects].
    destruct (subscribers m !! "agent") as [set|]; cbn [effects default].
    + rewrite calls_app, calls_of_notification. reflexivity.
    + rewrite app_nil_r. reflexivity.
  - unfold updateAgent, notify. cbn [subscribers effects].
    destruct (subscribers m !! "agent") as [set|]; cbn [effects default].
    + rewrite errors_app, errors_of_notification. reflexivity.
    + rewrite app_nil_r. reflexivity.
  - unfold updateAgent. rewrite subscribers_notify. reflexivity.
  - intros type callback. unfold subscribe. cbn [subscribers].
    rewrite !lookup_insert_eq. cbn [default].
    rewrite insert_insert_eq. f_equal. apply setAdd_twice.
  - intros type callback. unfold unsubscribe.
    destruct (subscribers m !! type) as [set|] eqn:E; cbn [subscribers].
    + rewrite lookup_insert_eq. cbn [default]. unfold setDelete.
      intros Hin. apply filter_In in Hin. destruct Hin as [_ Hin].
      rewrite Nat.eqb_refl in Hin. discriminate Hin.
    + rewrite E. intros [].
Qed.


End StateManagerFacts.

Section StateManagerWitnesses.

Import Engine StateManager.
Local Open Scope Q_scope.


End StateManagerWitnesses.

(** ** NetworkManager: the queue and the reconnection *)

Section NetworkFacts.

Import Network.
Local Open Scope Q_scope.

Implicit Types (m : NetworkManager).

Variable clock : nat -> Z.

Lemma send_open m (type data : string) :
  isOpen m = true ->
  send clock m type data =
    mkNetworkManager (socket m) (messageQueue m) (config m)
      (reconnectAttempts m)
      (sent m ++ [mkNetworkMessage type data (clock (ticks m)) "client"])
      (S (ticks m)).
Proof. intros H. unfold send. rewrite H. reflexivity. Qed.

Lemma send_closed m (type data : string) :
  isOpen m = false ->
  send clock m type data =
    mkNetworkManager (socket m)
      (messageQueue m ++ [mkNetworkMessage type data (clock (ticks m)) "client"])
      (config m) (reconnectAttempts m) (sent m) (S (ticks m)).
Proof. intros H. unfold send. rewrite H. reflexivity. Qed.

Lemma flush_open (queue : list NetworkMessage) :
  forall m (fuel : nat),
    messageQueue m = queue -> isOpen m = true ->
    (length queue <= fuel)%nat ->
    flushMessageQueue fuel clock m =
      Some (mkNetworkManager (socket m) [] (config m) (reconnectAttempts m)
              (sent m ++ restamp clock (ticks m) queue)
              (ticks m + length queue)).
Proof.
  induction queue as [|message rest IH]; intros m fuel Hq Hopen Hfuel.
  - destruct m as [sk q c a snt t]. cbn [messageQueue] in Hq. subst q.
    destruct fuel; cbn [flushMessageQueue messageQueue socket config
                         reconnectAttempts sent ticks restamp length];
      rewrite app_nil_r, Nat.add_0_r; reflexivity.
  - destruct fuel as [|fuel]; [simpl in Hfuel; lia|].
    cbn [flushMessageQueue]. rewrite Hq.
    rewrite send_open by exact Hopen.
    rewrite (IH _ fuel); [|reflexivity|exact Hopen|simpl in Hfuel; lia].
    cbn [messageQueue socket config reconnectAttempts sent ticks restamp length].
    rewrite <- app_assoc. cbn [app]. do 2 f_equal. lia.
Qed.

Lemma flush_closed (fuel : nat) :
  forall m, isOpen m = false -> messageQueue m <> [] ->
            flushMessageQueue fuel clock m = None.
Proof.
  induction fuel as [|fuel IH]; intros m Hclosed Hq.
  - cbn [flushMessageQueue]. destruct (messageQueue m); [congruence|reflexivity].
  - cbn [flushMessageQueue].
    destruct (messageQueue m) as [|message rest]; [congruence|].
    rewrite send_closed by exact Hclosed.
    apply IH; [exact Hclosed|]. cbn [messageQueue].
    intros H. apply app_eq_nil in H. destruct H as [_ H]. discriminate H.
Qed.

(** X29: while the socket is absent or not open, [send] puts the message
    at the end of the queue and hands nothing to the socket.  With an open
    socket the loop of [flushMessageQueue] ends, after as many turns as
    there are queued messages, with an empty queue, having handed the
    queued messages to the socket in their order, each with its type and
    data but stamped with the time of the flush.  With a socket that is
    not open and a queue that is not empty the loop never ends. *)
Theorem X29_queue_and_flush m :
  (isOpen m = false ->
   forall type data : string,
     messageQueue (send clock m type data)
       = messageQueue m
         ++ [mkNetworkMessage type data (clock (ticks m)) "client"]
     /\ sent (send clock m type data) = sent m)
  /\ (isOpen m = true ->
      forall fuel : nat,
        (length (messageQueue m) <= fuel)%nat ->
        exists m',
          flushMessageQueue fuel clock m = Some m'
          /\ messageQueue m' = []
          /\ sent m' = sent m ++ restamp clock (ticks m) (messageQueue m))
  /\ (isOpen m = false -> messageQueue m <> [] ->
      forall fuel : nat, flushMessageQueue fuel clock m = None).
Proof.
  split; [|split].
  - intros Hclosed type data. unfold send. rewrite Hclosed. split; reflexivity.
  - intros Hopen fuel Hfuel. eexists.
    split; [apply (flush_open (messageQueue m) m fuel eq_refl Hopen Hfuel)|].
    split; reflexivity.
  - intros Hclosed Hq fuel. apply flush_closed; assumption.
Qed.

Lemma handleReconnects_from (n : nat) :
  forall m (a N : nat),
    reconnectAttempts m = Z.of_nat a ->
    c_reconnectAttempts (config m) == inject_Z (Z.of_nat N) ->
    (a <= N)%nat ->
    (handleReconnects n m).2
      = map (fun k => Some (reconnectDelay (config m) * inject_Z (Z.of_nat (S k))))
            (seq a (Nat.min n (N - a)))
        ++ replicate (n - (N - a)) None
    /\ reconnectAttempts (handleReconnects n m).1
       = Z.of_nat (a + Nat.min n (N - a))
    /\ config (handleReconnects n m).1 = config m.
Proof.
  induction n as [|n IH]; intros m a N Ha HN Hle.
  - simpl. rewrite Nat.add_0_r. repeat split; trivial.
  - cbn [handleReconnects]. unfold handleReconnect.
    destruct (Qle_bool (c_reconnectAttempts (config m))
                       (inject_Z (reconnectAttempts m))) eqn:E.
    + apply Qle_bool_iff in E. rewrite HN, Ha in E.
      rewrite <- Zle_Qle in E.
      assert (a = N) by lia. subst a.
      destruct (IH m N N Ha HN (Nat.le_refl N)) as (IH1 & IH2 & IH3).
      destruct (handleReconnects n m) as [m2 ds] eqn:Em. simpl in *.
      replace (N - N)%nat with 0%nat in * by lia.
      rewrite Nat.min_0_r in *. simpl in *.
      rewrite Nat.sub_0_r in IH1. rewrite IH1.
      repeat split; trivial.
    + assert (Hlt : (a < N)%nat).
      { destruct (Nat.lt_ge_cases a N) as [H|H]; [exact H|].
        assert (Hq : c_reconnectAttempts (config m)
                     <= inject_Z (reconnectAttempts m)).
        { rewrite HN, Ha. rewrite <- Zle_Qle. lia. }
        apply Qle_bool_iff in Hq. congruence. }
      set (m1 := mkNetworkManager (socket m) (messageQueue m) (config m)
                   (reconnectAttempts m + 1) (sent m) (ticks m)).
      assert (Ha1 : reconnectAttempts m1 = Z.of_nat (S a))
        by (simpl; rewrite Ha; lia).
      destruct (IH m1 (S a) N Ha1 HN Hlt) as (IH1 & IH2 & IH3).
      destruct (handleReconnects n m1) as [m2 ds] eqn:Em. simpl in *.
      replace (N - a)%nat with (S (N - S a)) by lia.
      cbn [seq map app]. rewrite IH1, Ha1.
      change (S n - S (N - S a))%nat with (n - (N - S a))%nat.
      split; [reflexivity|]. split; [rewrite IH2; f_equal; lia|exact IH3].
Qed.

(** X30: when the number of attempts allowed by the configuration is the
    whole number N and the counter is at 0, consecutive [handleReconnect]
    calls wait once, twice, three times ... the configured delay, N times
    in all, and every later call gives up without waiting; the counter
    stops at N. *)
Theorem X30_reconnection_backs_off_and_stops m (N n : nat) :
  reconnectAttempts m = 0%Z ->
  c_reconnectAttempts (config m) == inject_Z (Z.of_nat N) ->
  (handleReconnects n m).2
    = map (fun k => Some (reconnectDelay (config m) * inject_Z (Z.of_nat (S k))))
          (seq 0 (Nat.min n N))
      ++ replicate (n - N) None
  /\ reconnectAttempts (handleReconnects n m).1 = Z.of_nat (Nat.min n N).
Proof.
  intros Ha HN.
  destruct (handleReconnects_from n m 0 N Ha HN (Nat.le_0_l N)) as (H1 & H2 & _).
  rewrite Nat.sub_0_r in H1, H2. split; [exact H1|exact H2].
Qed.

End NetworkFacts.

Section NetworkWitnesses.

Import Network.
Local Open Scope Q_scope.

Lemma X29_queue_and_flush_witness :
  isOpen connectingWithBacklog = false
  /\ messageQueue (send steadyClock connectingWithBacklog "ping" "")
     = messageQueue connectingWithBacklog
       ++ [mkNetworkMessage "ping" "" (steadyClock 2) "client"]
  /\ isOpen openWithBacklog = true
  /\ (length (messageQueue openWithBacklog) <= 2)%nat
  /\ (exists m',
        flushMessageQueue 2 steadyClock openWithBacklog = Some m'
        /\ messageQueue m' = []
        /\ sent m' = sent openWithBacklog
                     ++ restamp steadyClock 2 (messageQueue openWithBacklog))
  /\ messageQueue connectingWithBacklog <> []
  /\ flushMessageQueue 7 steadyClock connectingWithBacklog = None.
Proof.
  assert (Hc : isOpen connectingWithBacklog = false) by reflexivity.
  assert (Ho : isOpen openWithBacklog = true) by reflexivity.
  assert (Hf : (length (messageQueue openWithBacklog) <= 2)%nat)
    by (simpl; lia).
  assert (Hq : messageQueue connectingWithBacklog <> []) by discriminate.
  pose proof (X29_queue_and_flush steadyClock connectingWithBacklog)
    as (H1 & _ & H3).
  pose proof (X29_queue_and_flush steadyClock openWithBacklog) as (_ & H2 & _).
  split; [exact Hc|]. split; [exact (proj1 (H1 Hc "ping" ""%string))|].
  split; [exact Ho|]. split; [exact Hf|]. split; [exact (H2 Ho 2%nat Hf)|].
  split; [exact Hq|exact (H3 Hc Hq 7%nat)].
Defined.

Lemma X30_reconnection_backs_off_and_stops_witness :
  reconnectAttempts connectingWithBacklog = 0%Z
  /\ c_reconnectAttempts (config connectingWithBacklog) == inject_Z (Z.of_nat 5)
  /\ (handleReconnects 7 connectingWithBacklog).2
     = map (fun k => Some (reconnectDelay (config connectingWithBacklog)
                           * inject_Z (Z.of_nat (S k))))
           (seq 0 (Nat.min 7 5))
       ++ replicate (7 - 5) None
  /\ reconnectAttempts (handleReconnects 7 connectingWithBacklog).1
     = Z.of_nat (Nat.min 7 5).
Proof.
  assert (Ha : reconnectAttempts connectingWithBacklog = 0%Z) by reflexivity.
  assert (HN : c_reconnectAttempts (config connectingWithBacklog)
               == inject_Z (Z.of_nat 5)) by reflexivity.
  split; [exact Ha|]. split; [exact HN|].
  exact (X30_reconnection_backs_off_and_stops connectingWithBacklog 5 7 Ha HN).
Defined.

End NetworkWitnesses.
